(** * EAVS data scripts: union-view generation, incremental view patching,
      mapping lookup and validation helpers.

    A shallow embedding of the parts of [scripts/*.py] that build and patch
    SQL text, with the properties of the written specification stated and
    proved (or refuted) over it.

    Conventions.
    - A Python [str] is a [list ascii], read as a sequence of code points
      U+0000..U+00FF.  The character classes of [re] ([\d], [\w], [\s]) and
      [str.lower] follow CPython on that range.
    - A Python dict is an association list in insertion order; a lookup
      returns the first binding of the key.
    - The keys of a year's dict and the standard fields are strings; a
      value of such a dict is a [source]: [None], a string, or a value of
      another kind, given by its truth value and its text.
    - A call that can raise returns a [result]. *)

From Stdlib Require Import List Bool Arith ZArith NArith Lia Ascii String.
From Stdlib Require Import DecimalString.
From stdpp Require Import base list.
Import ListNotations.

From Stdlib Require Import Sorted Permutation.

Local Open Scope bool_scope.
Local Open Scope list_scope.

(** ** Text *)

Definition str := list ascii.

(** A Python string literal. *)
Definition lit (s : string) : str := list_ascii_of_string s.

Definition code (c : ascii) : N := N_of_ascii c.

Definition in_range (lo hi : N) (c : ascii) : bool :=
  (lo <=? code c)%N && (code c <=? hi)%N.

Definition ascii_eqb (a b : ascii) : bool := (code a =? code b)%N.

(** [\d]: decimal digits; below U+0100 these are 0-9. *)
Definition is_digit (c : ascii) : bool := in_range 48 57 c.

(** [\s] and [str.isspace]: TAB..CR, FS..US, space, NEL, NBSP. *)
Definition is_space (c : ascii) : bool :=
  in_range 9 13 c || in_range 28 32 c || in_range 133 133 c || in_range 160 160 c.

(** [\w]: alphanumeric code points and the underscore. *)
Definition is_word (c : ascii) : bool :=
  is_digit c || in_range 65 90 c || in_range 97 122 c || in_range 95 95 c
  || in_range 170 170 c || in_range 178 179 c || in_range 181 181 c
  || in_range 185 186 c || in_range 188 190 c || in_range 192 214 c
  || in_range 216 246 c || in_range 248 255 c.

(** [str.lower] on one code point. *)
Definition lower_char (c : ascii) : ascii :=
  if in_range 65 90 c || (in_range 192 222 c && negb (in_range 215 215 c))
  then ascii_of_N (code c + 32) else c.

Definition lower (s : str) : str := map lower_char s.

(** [str.upper] on one code point.  U+00DF becomes "SS"; the two letters
    whose upper case lies above U+00FF (U+00B5, U+00FF) are kept as they
    are. *)
Definition upper_char (c : ascii) : str :=
  if in_range 97 122 c || (in_range 224 254 c && negb (in_range 247 247 c))
  then [ascii_of_N (code c - 32)]
  else if in_range 223 223 c then lit "SS" else [c].

Definition upper (s : str) : str := flat_map upper_char s.

Fixpoint str_eqb (a b : str) : bool :=
  match a, b with
  | [], [] => true
  | x :: a', y :: b' => ascii_eqb x y && str_eqb a' b'
  | _, _ => false
  end.

(** [s.startswith(p)]. *)
Fixpoint starts_with (p s : str) : bool :=
  match p, s with
  | [], _ => true
  | x :: p', y :: s' => ascii_eqb x y && starts_with p' s'
  | _ :: _, [] => false
  end.

(** [needle in hay] on strings. *)
Fixpoint contains (needle hay : str) : bool :=
  starts_with needle hay ||
  match hay with
  | [] => false
  | _ :: hay' => contains needle hay'
  end.

(** [sep.join(parts)]. *)
Fixpoint join (sep : str) (parts : list str) : str :=
  match parts with
  | [] => []
  | [p] => p
  | p :: rest => p ++ sep ++ join sep rest
  end.

(** [s[:p] + x + s[p:]]. *)
Definition splice (s : str) (p : nat) (x : str) : str :=
  take p s ++ x ++ drop p s.

(** [s[-2:]]. *)
Definition last2 (s : str) : str := drop (length s - 2) s.

(** [x in xs] for a collection of strings. *)
Definition str_in (x : str) (xs : list str) : bool := existsb (str_eqb x) xs.
Arguments str_in : simpl never.

(** ** Results of calls that can raise *)

Inductive exn := ValueError | AttributeError | TypeError.

Inductive result (A : Type) :=
| Ok (a : A)
| Raise (e : exn).
Arguments Ok {A} a.
Arguments Raise {A} e.

Definition bind {A B} (r : result A) (f : A -> result B) : result B :=
  match r with
  | Ok a => f a
  | Raise e => Raise e
  end.

Notation "'let*' x ':=' r 'in' k" := (bind r (fun x => k))
  (at level 10, x name, r at level 100, k at level 200).

Definition is_ok {A} (r : result A) : bool :=
  match r with Ok _ => true | Raise _ => false end.

(** ** postload_validation.py: ValidationResult *)

Module Validation.

Record ValidationResult := {
  check_name : str;
  passed : bool;
  warnings : list str;
  errors : list str;
  info : list str
}.

(** [ValidationResult.__init__]. *)
Definition init (name : str) : ValidationResult :=
  {| check_name := name; passed := true; warnings := []; errors := []; info := [] |}.

Definition add_warning (message : str) (r : ValidationResult) : ValidationResult :=
  {| check_name := check_name r; passed := passed r;
     warnings := warnings r ++ [message]; errors := errors r; info := info r |}.

Definition add_error (message : str) (r : ValidationResult) : ValidationResult :=
  {| check_name := check_name r; passed := false;
     warnings := warnings r; errors := errors r ++ [message]; info := info r |}.

Definition add_info (message : str) (r : ValidationResult) : ValidationResult :=
  {| check_name := check_name r; passed := passed r;
     warnings := warnings r; errors := errors r; info := info r ++ [message] |}.

(** The three mutators, as a call trace. *)
Inductive call :=
| AddInfo (message : str)
| AddWarning (message : str)
| AddError (message : str).

Definition step (r : ValidationResult) (c : call) : ValidationResult :=
  match c with
  | AddInfo m => add_info m r
  | AddWarning m => add_warning m r
  | AddError m => add_error m r
  end.

Definition run (calls : list call) (r : ValidationResult) : ValidationResult :=
  fold_left step calls r.

Definition is_error (c : call) : bool :=
  match c with AddError _ => true | _ => false end.

End Validation.

(** ** validate_mappings.py: find_similar_field *)

Module Suggest.

(** The first [x] of [l] for which [f x] gives a value: a [for] loop that
    returns from inside. *)
Fixpoint first_some {A B} (f : A -> option B) (l : list A) : option B :=
  match l with
  | [] => None
  | x :: l' => match f x with Some y => Some y | None => first_some f l' end
  end.

(** [for field in available_fields: if test(field): return field]. *)
Definition first_field (test : str -> bool) (available_fields : list str) : option str :=
  first_some (fun field => if test field then Some field else None) available_fields.

Definition patterns : list (str * list str) :=
  [ (lit "total", [lit "total"; lit "tot"]);
    (lit "reject", [lit "reject"; lit "denied"; lit "invalid"]);
    (lit "count", [lit "count"; lit "cnt"; lit "total"]);
    (lit "mail", [lit "mail"; lit "absentee"; lit "post"]);
    (lit "uocava", [lit "uocava"; lit "military"; lit "overseas"]) ].

Definition find_similar_field (target : str) (available_fields : list str) : option str :=
  let target_lower := lower target in
  match first_field (fun field => str_eqb (lower field) target_lower) available_fields with
  | Some field => Some field
  | None =>
    match first_field (fun field => contains target_lower (lower field)
                                    || contains (lower field) target_lower)
                      available_fields with
    | Some field => Some field
    | None =>
      first_some (fun pa : str * list str =>
        let (pattern, alternatives) := pa in
        if contains pattern target_lower
        then first_some (fun alt =>
               first_field (fun field => contains alt (lower field)) available_fields)
               alternatives
        else None) patterns
    end
  end.

End Suggest.

(** ** Python built-ins used by the scripts *)

Fixpoint drop_while (p : ascii -> bool) (s : str) : str :=
  match s with
  | [] => []
  | c :: s' => if p c then drop_while p s' else s
  end.

(** Decimal digits with single underscores between them, as [int] reads
    them; [prev] tells that the previous character was a digit. *)
Fixpoint digits_value (acc : Z) (prev : bool) (s : str) : option Z :=
  match s with
  | [] => if prev then Some acc else None
  | c :: s' =>
    if is_digit c then digits_value (10 * acc + (Z.of_N (code c) - 48)) true s'
    else if ascii_eqb c "_" && prev then digits_value acc false s'
    else None
  end.

(** The white space that [int] skips around the digits: TAB..CR and the
    space, and NEL and NBSP, which [int] turns into spaces first.  FS..US
    are white space for [str.strip] but not for [int]. *)
Definition is_int_space (c : ascii) : bool :=
  in_range 9 13 c || in_range 32 32 c || in_range 133 133 c || in_range 160 160 c.

Definition int_strip (s : str) : str :=
  rev (drop_while is_int_space (rev (drop_while is_int_space s))).

(** [sys.get_int_max_str_digits()]: the scripts leave the default. *)
Definition int_max_str_digits : N := 4300.

(** [int(s)] for a string: surrounding white space, an optional sign, then
    digits, no more of them than the interpreter's limit.  [ValueError]
    otherwise. *)
Definition py_int (s : str) : result Z :=
  let t := int_strip s in
  let v := match t with
           | c :: r =>
             if ascii_eqb c "+" then digits_value 0 false r
             else if ascii_eqb c "-" then option_map Z.opp (digits_value 0 false r)
             else digits_value 0 false t
           | [] => None
           end in
  match v with
  | Some z =>
    if (int_max_str_digits <? N.of_nat (length (List.filter is_digit t)))%N
    then Raise ValueError else Ok z
  | None => Raise ValueError
  end.

(** [str(n)] for an integer. *)
Definition str_of_int (z : Z) : str := lit (NilZero.string_of_int (Z.to_int z)).

(** Order of strings: by code point, a proper prefix first. *)
Fixpoint str_leb (a b : str) : bool :=
  match a, b with
  | [], _ => true
  | _ :: _, [] => false
  | x :: a', y :: b' =>
    if (code x <? code y)%N then true
    else if (code y <? code x)%N then false
    else str_leb a' b'
  end.

Fixpoint insert_sorted (x : str) (l : list str) : list str :=
  match l with
  | [] => [x]
  | y :: l' => if str_leb x y then x :: l else y :: insert_sorted x l'
  end.

(** [sorted(l)] for a list of strings. *)
Definition sorted (l : list str) : list str := fold_right insert_sorted [] l.

(** ** The mapping configuration (config/field_mappings.yaml) *)

(** A key of a section's mapping: YAML reads a bare [2024] as an integer
    and a quoted one, or a word, as a string. *)
Inductive key :=
| KInt (z : Z)
| KStr (s : str).

Definition key_eqb (a b : key) : bool :=
  match a, b with
  | KInt x, KInt y => (x =? y)%Z
  | KStr x, KStr y => str_eqb x y
  | _, _ => false
  end.

(** What the dict of a year holds for a standard field: [None] (the YAML
    [null]), a string, or another value that YAML reads (a number, a
    boolean, a list, a dict, a date).  Of such a value the scripts use its
    truth value and its text [str(v)], and that it is neither [None] nor a
    string: it equals no string and has no [lower].  Binary scalars are
    left out. *)
Inductive source :=
| SNone
| SStr (s : str)
| SOther (truth : bool) (text : str).

(** [bool(v)]. *)
Definition source_truth (v : source) : bool :=
  match v with
  | SNone => false
  | SStr s => negb (str_eqb s [])
  | SOther truth _ => truth
  end.

(** [str(v)], which is what an f-string puts for [{v}]. *)
Definition source_str (v : source) : str :=
  match v with
  | SNone => lit "None"
  | SStr s => s
  | SOther _ text => text
  end.

(** [v == 'null']. *)
Definition is_null_word (v : source) : bool :=
  match v with
  | SStr s => str_eqb s (lit "null")
  | _ => false
  end.

(** [v is None]. *)
Definition is_none (v : source) : bool :=
  match v with
  | SNone => true
  | _ => false
  end.

(** What a section's mapping holds under a key: nothing ([null]), a list of
    names, or a dict from standard field to source expression. *)
Inductive value :=
| VNull
| VList (items : list str)
| VDict (d : list (str * source)).

Definition mappings := list (key * value).

Record config := {
  project_id : str;           (* config['global']['project_id'] *)
  analytics_dataset : str;    (* config['global']['analytics_dataset'] *)
  sections : list (str * mappings)
}.

(** [d.get(k)] on a section's mapping. *)
Fixpoint dict_get (k : key) (m : mappings) : option value :=
  match m with
  | [] => None
  | (k', v) :: m' => if key_eqb k k' then Some v else dict_get k m'
  end.

(** [d.get(k, default)]. *)
Definition get_default (m : mappings) (k : key) (default : value) : value :=
  match dict_get k m with Some v => v | None => default end.

(** [config.get(mapping_key)]. *)
Fixpoint section_get (mapping_key : str) (l : list (str * mappings)) : option mappings :=
  match l with
  | [] => None
  | (k, m) :: l' => if str_eqb mapping_key k then Some m else section_get mapping_key l'
  end.

(** [year_mappings.get(standard_field)]: only a dict has [get]; a field
    bound to [null] and a field that is missing both give [None]. *)
Fixpoint field_get (f : str) (d : list (str * source)) : source :=
  match d with
  | [] => SNone
  | (f', src) :: d' => if str_eqb f f' then src else field_get f d'
  end.

Definition value_get (v : value) (f : str) : result source :=
  match v with
  | VDict d => Ok (field_get f d)
  | _ => Raise AttributeError
  end.

(** [for x in v]: the items of a list, the keys of a dict; [None] is not
    iterable. *)
Definition iterate (v : value) : result (list str) :=
  match v with
  | VNull => Raise TypeError
  | VList items => Ok items
  | VDict d => Ok (map fst d)
  end.

(** Truth value of a mapping entry: [None] and empty containers are false. *)
Definition truthy (v : value) : bool :=
  match v with
  | VNull => false
  | VList [] => false
  | VDict [] => false
  | _ => true
  end.

(** ** Regular expressions, as [re] matches them

    Backtracking, leftmost, greedy.  [Grp] is a capturing group; every
    pattern of the scripts has at most one. *)

Module Re.

Inductive regex :=
| Eps
| Chr (p : ascii -> bool)
| Cat (r1 r2 : regex)
| Alt (r1 r2 : regex)
| Star (r : regex)
| NotAhead (r : regex)
| Grp (r : regex).

Fixpoint seq (rs : list regex) : regex :=
  match rs with
  | [] => Eps
  | r :: rs' => Cat r (seq rs')
  end.

(** Literal text. *)
Definition Lit (s : str) : regex := seq (map (fun c => Chr (ascii_eqb c)) s).

(** Literal text under [re.IGNORECASE]. *)
Definition ILit (s : str) : regex :=
  seq (map (fun c => Chr (fun x => ascii_eqb (lower_char x) (lower_char c))) s).

Definition Plus (r : regex) : regex := Cat r (Star r).

Fixpoint Rep (n : nat) (r : regex) : regex :=
  match n with
  | 0 => Eps
  | S n' => Cat r (Rep n' r)
  end.

(** [m r s g k]: match [r] at the front of [s], then continue with [k] on
    the rest; [g] is the text of the group so far.  The first success in
    the order of the backtracking search is returned.  A starred body must
    consume a character to go round again, so [length s] rounds are
    enough. *)
Fixpoint m (A : Type) (r : regex) (s : str) (g : option str)
    (k : str -> option str -> option A) {struct r} : option A :=
  match r with
  | Eps => k s g
  | Chr p =>
    match s with
    | c :: s' => if p c then k s' g else None
    | [] => None
    end
  | Cat r1 r2 => m A r1 s g (fun s' g' => m A r2 s' g' k)
  | Alt r1 r2 =>
    match m A r1 s g k with
    | Some x => Some x
    | None => m A r2 s g k
    end
  | Star r1 =>
    (fix loop (n : nat) (s : str) (g : option str) {struct n} : option A :=
       match n with
       | 0 => k s g
       | S n' =>
         match m A r1 s g (fun s' g' =>
                 if length s' <? length s then loop n' s' g' else None) with
         | Some x => Some x
         | None => k s g
         end
       end) (length s) s g
  | NotAhead r1 =>
    match m unit r1 s g (fun _ _ => Some tt) with
    | Some _ => None
    | None => k s g
    end
  | Grp r1 => m A r1 s g (fun s' g' => k s' (Some (take (length s - length s') s)))
  end.

(** A match object: [start()], [end()] and the text of the group. *)
Record found := { start : nat; stop : nat; group : option str }.

(** A match starting exactly at the front of [s], which is at offset [pos]. *)
Definition match_at (r : regex) (pos : nat) (s : str) : option found :=
  m found r s None (fun s' g =>
    Some {| start := pos; stop := pos + (length s - length s'); group := g |}).

(** [re.search]: the first offset at which the pattern matches. *)
Fixpoint search_from (r : regex) (pos : nat) (s : str) : option found :=
  match match_at r pos s with
  | Some f => Some f
  | None =>
    match s with
    | [] => None
    | _ :: s' => search_from r (S pos) s'
    end
  end.

Definition search (r : regex) (s : str) : option found := search_from r 0 s.

(** [re.finditer]: the matches from left to right, each search starting
    where the previous match stopped; [skip] counts the characters of the
    previous match still to be passed over. *)
Fixpoint finditer_from (r : regex) (pos skip : nat) (s : str) : list found :=
  match skip with
  | S skip' =>
    match s with
    | [] => []
    | _ :: s' => finditer_from r (S pos) skip' s'
    end
  | 0 =>
    match match_at r pos s with
    | Some f =>
      f :: match s with
           | [] => []
           | _ :: s' => finditer_from r (S pos) (stop f - pos - 1) s'
           end
    | None =>
      match s with
      | [] => []
      | _ :: s' => finditer_from r (S pos) 0 s'
      end
    end
  end.

Definition finditer (r : regex) (s : str) : list found := finditer_from r 0 0 s.

(** [re.findall] for a pattern with one group: the text of the group in
    each match. *)
Definition findall (r : regex) (s : str) : list str :=
  map (fun f => match group f with Some t => t | None => [] end) (finditer r s).

Definition digit := Chr is_digit.
Definition space := Chr is_space.
Definition word := Chr is_word.
Definition not_char (c : ascii) := Chr (fun x => negb (ascii_eqb x c)).

End Re.

(** ** What one attempt to bring a view up to date does *)

Inductive outcome :=
| AlreadyIncluded                               (* logged, nothing sent *)
| NotGenerated                                  (* no CTE could be built, nothing sent *)
| Updated (updated_sql : str)                   (* sent as the view's new query *)
| SavedForReview (filename : str) (sql : str)   (* error logged, text written to a side file *)
| Error (e : exn).                              (* caught and logged, nothing sent *)

(** The query of the view in the warehouse after the attempt. *)
Definition view_after (existing_sql : str) (o : outcome) : str :=
  match o with
  | Updated updated_sql => updated_sql
  | _ => existing_sql
  end.

Definition nl : str := ["010"%char].

(** ** load_eavs_year.py: EAVSLoader *)

Module Loader.

Definition config_map : list (str * str) :=
  [ (lit "a_reg", lit "registration_mappings");
    (lit "b_uocava", lit "uocava_mappings");
    (lit "c_mail", lit "mail_mappings");
    (lit "f1_participation", lit "participation_mappings") ].

Fixpoint assoc (k : str) (l : list (str * str)) : option str :=
  match l with
  | [] => None
  | (k', v) :: l' => if str_eqb k k' then Some v else assoc k l'
  end.

(** [self.year_short]. *)
Definition year_short (year : str) : str := last2 year.

(** The name under which [create_external_tables] creates the table of a
    section. *)
Definition table_name (year section : str) : str :=
  concat [lit "eavs_county_"; year_short year; lit "_"; section].

(** The loop of [_generate_year_cte] over the standard fields. *)
Fixpoint selections_of (year_fields : value) (fields : list str) : result (list str) :=
  match fields with
  | [] => Ok []
  | standard_field :: rest =>
    if str_eqb standard_field (lit "election_year") then selections_of year_fields rest
    else
      let* source_field := value_get year_fields standard_field in
      let* tail := selections_of year_fields rest in
      Ok ((if source_truth source_field && negb (is_null_word source_field)
           then concat [source_str source_field; lit " AS "; standard_field]
           else concat [lit "NULL AS "; standard_field]) :: tail)
  end.

(** The text of the CTE, given the list [selections]. *)
Definition cte_text (year section : str) (selections : list str) : str :=
  let selections_str := join (lit "," ++ nl ++ lit "    ") selections in
  concat [ lit "  "; section; lit "_"; year; lit " AS ("; nl;
           lit "  SELECT"; nl;
           lit "    "; selections_str; nl;
           lit "  FROM"; nl;
           lit "    `eavs_"; year; lit "."; table_name year section; lit "`"; nl;
           lit "  )" ].

(** [mappings.get(self.year, mappings.get(int(self.year), {}))]. *)
Definition year_fields_of (m : mappings) (year : str) : result value :=
  let* y := py_int year in
  Ok (get_default m (KStr year) (get_default m (KInt y) (VDict []))).

Definition _generate_year_cte (cfg : config) (year section : str) : result (option str) :=
  match assoc section config_map with
  | None => Ok None
  | Some config_key =>
    match section_get config_key (sections cfg) with
    | None => Ok None
    | Some mappings =>
      let* year_fields := year_fields_of mappings year in
      if negb (truthy year_fields) then Ok None
      else
        let* fields := iterate (get_default mappings (KStr (lit "standard_fields")) (VList [])) in
        let* rest := selections_of year_fields fields in
        let selections := concat [lit "'"; year; lit "' AS election_year"] :: rest in
        Ok (Some (cte_text year section selections))
    end
  end.

(** [section + r"_(\d{4}) AS \("].  The section is one of the keys of
    [view_mapping], which hold no character special to [re]; it is matched
    as literal text. *)
Definition pattern (section : str) : Re.regex :=
  Re.seq [Re.Lit section; Re.Lit (lit "_"); Re.Grp (Re.Rep 4 Re.digit); Re.Lit (lit " AS (")].

(** [f"({section}_{last_year}" + r" AS \([^)]+\))"]. *)
Definition insert_pattern (section last_year : str) : Re.regex :=
  Re.Grp (Re.seq [Re.Lit section; Re.Lit (lit "_"); Re.Lit last_year; Re.Lit (lit " AS (");
                  Re.Plus (Re.not_char ")"); Re.Lit (lit ")")]).

(** [r"(,\s*union_all as \()"]. *)
Definition union_pattern : Re.regex :=
  Re.Grp (Re.seq [Re.Lit (lit ","); Re.Star Re.space; Re.Lit (lit "union_all as (")]).

(** [r"(FROM\s+\w+_\d{4})\s*\)"]. *)
Definition last_select_pattern : Re.regex :=
  Re.seq [Re.Grp (Re.seq [Re.Lit (lit "FROM"); Re.Plus Re.space; Re.Plus Re.word;
                          Re.Lit (lit "_"); Re.Rep 4 Re.digit]);
          Re.Star Re.space; Re.Lit (lit ")")].

(** [f"\nUNION ALL\nSELECT * FROM {section}_{self.year}"]. *)
Definition union_addition (year section : str) : str :=
  concat [nl; lit "UNION ALL"; nl; lit "SELECT * FROM "; section; lit "_"; year].

(** The text after the first step of [_insert_cte_into_view]: the new CTE
    put after the last year's CTE of the section or, when the section has
    none, before the [union_all] CTE. *)
Definition insert_cte (existing_sql new_cte section : str) : str :=
  let years := Re.findall (pattern section) existing_sql in
  match years with
  | _ :: _ =>
    let last_year := List.last (sorted years) [] in
    match Re.search (insert_pattern section last_year) existing_sql with
    | Some found => splice existing_sql (Re.stop found) (lit "," ++ nl ++ new_cte)
    | None => existing_sql
    end
  | [] =>
    match Re.search union_pattern existing_sql with
    | Some found => splice existing_sql (Re.start found) (lit "," ++ nl ++ new_cte)
    | None => existing_sql
    end
  end.

(** The second step: the new arm put after the last [FROM name_year )]. *)
Definition add_union_arm (year existing_sql section : str) : str :=
  match rev (Re.finditer last_select_pattern existing_sql) with
  | last_match :: _ => splice existing_sql (Re.stop last_match) (union_addition year section)
  | [] => existing_sql
  end.

Definition _insert_cte_into_view (year existing_sql new_cte section : str) : str :=
  add_union_arm year (insert_cte existing_sql new_cte section) section.

(** The marker of [update_union_views]: [f"{section}_{self.year}"]. *)
Definition marker (year section : str) : str := concat [section; lit "_"; year].

(** The body of the loop of [update_union_views] for one section whose file
    was uploaded, given the query of its view. *)
Definition update_union_view (cfg : config) (year section existing_sql : str) : outcome :=
  if contains (marker year section) existing_sql then AlreadyIncluded
  else
    match _generate_year_cte cfg year section with
    | Raise e => Error e
    | Ok None => NotGenerated
    | Ok (Some new_cte) =>
      if str_eqb new_cte [] then NotGenerated
      else Updated (_insert_cte_into_view year existing_sql new_cte section)
    end.

End Loader.

(** ** load_denominators_2024.py: update_acs_population_union_view *)

Module Denominators.

Definition new_cte : str :=
  concat [ lit "  acs_2024 AS ("; nl;
           lit "  SELECT"; nl;
           lit "    '2024' AS election_year,"; nl;
           lit "    GEOID,"; nl;
           lit "    lntitle AS LNTITLE,"; nl;
           lit "    TRIM(SPLIT(geoname, ',')[SAFE_OFFSET(1)]) AS state,"; nl;
           lit "    geoname AS county_name,"; nl;
           lit "    tot_est AS acs_total_population,"; nl;
           lit "    adu_est AS acs_adult_population,"; nl;
           lit "    cit_est AS acs_citizen_population,"; nl;
           lit "    cvap_est AS acs_cvap_population"; nl;
           lit "  FROM"; nl;
           lit "    `eavs-392800.acs.acs_2019-2023_county_cvap` )" ].

(** [r"(acs_2021 AS \((?:[^)]|\)(?!\s*,))*\)\s*,)"]. *)
Definition pattern : Re.regex :=
  Re.Grp (Re.seq
    [ Re.Lit (lit "acs_2021 AS (");
      Re.Star (Re.Alt (Re.not_char ")")
                      (Re.Cat (Re.Lit (lit ")"))
                              (Re.NotAhead (Re.Cat (Re.Star Re.space) (Re.Lit (lit ","))))));
      Re.Lit (lit ")"); Re.Star Re.space; Re.Lit (lit ",") ]).

(** [r"(SELECT\s+\*\s+FROM\s+acs_2021)"] under [re.IGNORECASE]. *)
Definition union_pattern : Re.regex :=
  Re.Grp (Re.seq
    [ Re.ILit (lit "SELECT"); Re.Plus Re.space; Re.Lit (lit "*"); Re.Plus Re.space;
      Re.ILit (lit "FROM"); Re.Plus Re.space; Re.ILit (lit "acs_2021") ]).

Definition union_statement : str :=
  concat [ nl; lit "    UNION ALL"; nl; lit "    SELECT"; nl; lit "      *"; nl;
           lit "    FROM"; nl; lit "      acs_2024" ].

Definition update_acs_population_union_view (existing_sql : str) : outcome :=
  if contains (lit "'2024'") existing_sql || contains (lit "acs_2024") existing_sql
  then AlreadyIncluded
  else
    match Re.search pattern existing_sql with
    | Some found =>
      let updated_sql := splice existing_sql (Re.stop found) (nl ++ new_cte ++ lit ",") in
      match Re.search union_pattern updated_sql with
      | Some union_match =>
        Updated (splice updated_sql (Re.stop union_match) union_statement)
      | None => SavedForReview (lit "acs_population_union_MANUAL.sql") updated_sql
      end
    | None => SavedForReview (lit "acs_population_union_current.sql") existing_sql
    end.

End Denominators.

(** ** generate_dynamic_unions.py: DynamicUnionGenerator *)

Module Generator.

(** [self.config.get(mapping_key, {})]. *)
Definition mappings_of (cfg : config) (mapping_key : str) : mappings :=
  match section_get mapping_key (sections cfg) with
  | Some m => m
  | None => []
  end.

(** [str(year)] for a key of the mapping. *)
Definition str_of_key (k : key) : str :=
  match k with
  | KInt z => str_of_int z
  | KStr s => s
  end.

Definition is_standard_fields (k : key) : bool :=
  key_eqb k (KStr (lit "standard_fields")).

Definition get_all_years (cfg : config) (mapping_key : str) : list str :=
  let mappings := mappings_of cfg mapping_key in
  sorted (map str_of_key
            (List.filter (fun year => negb (is_standard_fields year)) (map fst mappings))).

Definition get_standard_fields (cfg : config) (mapping_key : str) : value :=
  get_default (mappings_of cfg mapping_key) (KStr (lit "standard_fields")) (VList []).

Definition get_dataset_name (year : str) : str := lit "eavs_" ++ year.

Definition get_table_name (year section_code : str) : str :=
  let year_suffix := last2 year in
  let section_suffix := upper section_code in   (* replace('_', '_') changes nothing *)
  concat [lit "eavs_county_"; year_suffix; lit "_"; section_suffix].

Definition base_fields : list str :=
  [lit "fips"; lit "election_year"; lit "state"; lit "county"; lit "state_abbr";
   lit "county_name"].

(** [mappings.get(int(year), mappings.get(year, {}))]. *)
Definition year_mappings_of (m : mappings) (year : str) : result value :=
  let* y := py_int year in
  Ok (get_default m (KInt y) (get_default m (KStr year) (VDict []))).

(** The entry of the select list for one mapped field. *)
Definition field_select (source_field : source) (standard_field : str) : str :=
  if is_null_word source_field || is_none source_field
  then concat [lit "NULL as "; standard_field]
  else concat [source_str source_field; lit " as "; standard_field].

(** The loop over the standard fields: what it appends to [selects]. *)
Fixpoint mapped_selects (year_mappings : value) (fields : list str) : result (list str) :=
  match fields with
  | [] => Ok []
  | standard_field :: rest =>
    if str_in standard_field base_fields then mapped_selects year_mappings rest
    else
      let* source_field := value_get year_mappings standard_field in
      let* tail := mapped_selects year_mappings rest in
      Ok (field_select source_field standard_field :: tail)
  end.

(** The list [selects] before the loop. *)
Definition base_selects (year : str) : list str :=
  [ lit "fips";
    concat [lit "'"; year; lit "' as election_year"];
    lit "state";
    lit "county";
    lit "state_abbr";
    lit "county_name" ].

(** The list [selects] when the loop is over. *)
Definition selects_of (cfg : config) (year mapping_key : str) : result (list str) :=
  let mappings := mappings_of cfg mapping_key in
  let* year_mappings := year_mappings_of mappings year in
  let* fields := iterate (get_standard_fields cfg mapping_key) in
  let* mapped := mapped_selects year_mappings fields in
  Ok (base_selects year ++ mapped).

Definition from_clause (cfg : config) (year section_code : str) : str :=
  concat [lit "`"; project_id cfg; lit "."; get_dataset_name year; lit ".";
          get_table_name year section_code; lit "`"].

(** The text of a year block, given the list [selects]. *)
Definition select_block (cfg : config) (year section_code : str) (selects : list str) : str :=
  let select_clause := join (lit "," ++ nl ++ lit "  ") selects in
  concat [ lit "-- "; year; lit " Data"; nl;
           lit "SELECT "; nl;
           lit "  "; select_clause; nl;
           lit "FROM "; from_clause cfg year section_code ].

Definition generate_union_select (cfg : config) (year mapping_key section_code : str)
    : result str :=
  let* selects := selects_of cfg year mapping_key in
  Ok (select_block cfg year section_code selects).

(** The loop over the years: a block that raises is skipped with a
    warning. *)
Fixpoint union_blocks_of (cfg : config) (mapping_key section_code : str) (years : list str)
    : list str :=
  match years with
  | [] => []
  | year :: rest =>
    match generate_union_select cfg year mapping_key section_code with
    | Ok select_block => select_block :: union_blocks_of cfg mapping_key section_code rest
    | Raise _ => union_blocks_of cfg mapping_key section_code rest
    end
  end.

Definition view_header (cfg : config) (view_name : str) : str :=
  concat [ lit "-- EAVS "; view_name; lit " Union View"; nl;
           lit "-- Automatically generated from config - all years included dynamically"; nl;
           lit "-- DO NOT EDIT - regenerate using scripts/generate_dynamic_unions.py"; nl;
           nl;
           lit "CREATE OR REPLACE VIEW `"; project_id cfg; lit "."; analytics_dataset cfg;
           lit "."; view_name; lit "` AS"; nl;
           nl ].

Definition generate_full_union_view (cfg : config) (mapping_key section_code view_name : str)
    : result str :=
  let years := get_all_years cfg mapping_key in
  match years with
  | [] => Raise ValueError
  | _ :: _ =>
    let union_blocks := union_blocks_of cfg mapping_key section_code years in
    match union_blocks with
    | [] => Raise ValueError
    | _ :: _ =>
      let union_sql := join (nl ++ nl ++ lit "UNION ALL" ++ nl ++ nl) union_blocks in
      Ok (view_header cfg view_name ++ union_sql)
    end
  end.

End Generator.

(** ** generate_union_views.py: UnionViewGenerator *)

Module TemplateGenerator.

(** [mappings.get(int(year), mappings.get(year, {}))] in
    [generate_view_sql]. *)
Definition year_mappings_of (m : mappings) (year : str) : result value :=
  let* y := py_int year in
  Ok (get_default m (KInt y) (get_default m (KStr year) (VDict []))).

End TemplateGenerator.

(** ** Years as the specification speaks of them *)

(** A year of four decimal digits. *)
Definition four_digit (year : str) : bool :=
  match year with
  | [a; b; c; d] => is_digit a && is_digit b && is_digit c && is_digit d
  | _ => false
  end.

(** The number that the digits of [year] write. *)
Definition year_number (year : str) : Z :=
  fold_left (fun acc c => (10 * acc + (Z.of_N (code c) - 48))%Z) year 0%Z.

(** ** The words of the specification about a year's mapping *)

(** The value of a field is the ['null'] sentinel, or the field has no
    value (it is missing or bound to the YAML [null]). *)
Definition null_or_absent (src : source) : bool :=
  match src with
  | SNone => true
  | SStr e => str_eqb e (lit "null")
  | SOther _ _ => false
  end.

(** The value of a field is one that Python takes for false and that is
    not [None]: the empty string, or a zero, [false], an empty list or the
    like. *)
Definition empty_source (src : source) : bool :=
  match src with
  | SNone => false
  | SStr e => str_eqb e []
  | SOther truth _ => negb truth
  end.

(** The value of a field is written [NULL] itself. *)
Definition written_NULL (src : source) : bool := str_eqb (source_str src) (lit "NULL").

(** A standard field that is not one of the base fields. *)
Definition non_base (f : str) : bool := negb (str_in f Generator.base_fields).

Definition not_election_year (f : str) : bool := negb (str_eqb f (lit "election_year")).

(** ** Sample configurations and views *)

Module Sample.

(** The scenario of the specification, with one more key that is not a
    year. *)
Definition cfg : config :=
  {| project_id := lit "eavs-392800";
     analytics_dataset := lit "eavs_analytics";
     sections :=
       [ (lit "registration_mappings",
          [ (KStr (lit "standard_fields"),
             VList [lit "fips"; lit "election_year"; lit "state"; lit "county";
                    lit "a"; lit "b"]);
            (KInt 2016, VDict [(lit "a", SStr (lit "col_a")); (lit "b", SStr (lit "null"))]);
            (KStr (lit "notes"), VNull);
            (KInt 2018, VDict [(lit "a", SStr (lit "col_a2")); (lit "b", SStr (lit "col_b2"))]);
            (KInt 2024, VDict [(lit "a", SStr []); (lit "b", SStr (lit "col_b3"))]) ]) ] |}.

(** A mapping whose values for 2020 are the text [NULL], a zero and the
    empty string. *)
Definition odd : config :=
  {| project_id := lit "eavs-392800";
     analytics_dataset := lit "eavs_analytics";
     sections :=
       [ (lit "registration_mappings",
          [ (KStr (lit "standard_fields"),
             VList [lit "fips"; lit "election_year"; lit "a"; lit "b"; lit "c"]);
            (KInt 2020, VDict [(lit "a", SStr (lit "NULL")); (lit "b", SOther false (lit "0"));
                               (lit "c", SStr [])]) ]) ] |}.


(** A view written with a lower-case [as] after the CTE names and an
    upper-case [AS] after [union_all]. *)
Definition view_sql : str :=
  concat [ lit "WITH a_reg_2022 as ("; nl;
           lit "  SELECT * FROM `eavs_2022.eavs_county_22_a_reg`"; nl;
           lit "), union_all AS ("; nl;
           lit "  SELECT * FROM a_reg_2022"; nl;
           lit ")"; nl;
           lit "SELECT * FROM union_all" ].


End Sample.

(** ** What a pattern matches

    [lang r t]: the text [t] is one that [r] can consume.  A look-ahead
    consumes nothing; what it forbids is not part of this relation, which
    bounds the matcher from above. *)

Fixpoint lang (r : Re.regex) (t : str) : Prop :=
  match r with
  | Re.Eps => t = []
  | Re.Chr p => exists c, t = [c] /\ p c = true
  | Re.Cat r1 r2 => exists t1 t2, t = t1 ++ t2 /\ lang r1 t1 /\ lang r2 t2
  | Re.Alt r1 r2 => lang r1 t \/ lang r2 t
  | Re.Star r1 => exists ts, t = concat ts /\ Forall (lang r1) ts
  | Re.NotAhead _ => t = []
  | Re.Grp r1 => lang r1 t
  end.

(** [a <= b] in the order of [sorted]. *)
Definition leb_rel (a b : str) : Prop := str_leb a b = true.

(** ** load_eavs_year.py: update_union_views, the whole loop *)

Module LoaderRun.

Definition PROJECT_ID : str := lit "eavs-392800".
Definition ANALYTICS_DATASET : str := lit "eavs_analytics".

Definition view_mapping : list (str * str) :=
  [ (lit "a_reg", lit "eavs_county_reg_union");
    (lit "b_uocava", lit "eavs_county_uocava_union");
    (lit "c_mail", lit "eavs_county_mail_union");
    (lit "f1_participation", lit "eavs_county_part_union") ].

(** [f"{PROJECT_ID}.{ANALYTICS_DATASET}.{view_name}"]. *)
Definition view_id_of (view_name : str) : str :=
  concat [PROJECT_ID; lit "."; ANALYTICS_DATASET; lit "."; view_name].
Arguments view_id_of : simpl never.

(** The views of the warehouse: table id and query. *)
Definition warehouse := list (str * str).

(** [bq_client.get_table(view_id).view_query]; [None] when the call raises
    [NotFound]. *)
Fixpoint get_view (view_id : str) (w : warehouse) : option str :=
  match w with
  | [] => None
  | (id, query) :: w' => if str_eqb view_id id then Some query else get_view view_id w'
  end.

(** [bq_client.update_table(view, ["view_query"])] on a view that exists,
    taken to succeed. *)
Fixpoint set_view (view_id query : str) (w : warehouse) : warehouse :=
  match w with
  | [] => []
  | (id, q) :: w' =>
    if str_eqb view_id id then (id, query) :: w' else (id, q) :: set_view view_id query w'
  end.

(** [section in gcs_paths]. *)
Definition uploaded (section : str) (gcs_paths : list (str * str)) : bool :=
  existsb (fun kv => str_eqb section (fst kv)) gcs_paths.

(** The loop of [update_union_views] over the entries of a view mapping. *)
Fixpoint update_views (cfg : config) (year : str) (gcs_paths : list (str * str))
    (views : list (str * str)) (w : warehouse) : warehouse :=
  match views with
  | [] => w
  | (section, view_name) :: rest =>
    if negb (uploaded section gcs_paths) then update_views cfg year gcs_paths rest w
    else
      match get_view (view_id_of view_name) w with
      | None => update_views cfg year gcs_paths rest w
      | Some existing_sql =>
        match Loader.update_union_view cfg year section existing_sql with
        | Updated updated_sql =>
          update_views cfg year gcs_paths rest (set_view (view_id_of view_name) updated_sql w)
        | _ => update_views cfg year gcs_paths rest w
        end
      end
  end.

Definition update_union_views (cfg : config) (year : str) (gcs_paths : list (str * str))
    (w : warehouse) : warehouse :=
  update_views cfg year gcs_paths view_mapping w.

(** The section whose view has the given id, if any. *)
Fixpoint section_of_view (view_id : str) (views : list (str * str)) : option str :=
  match views with
  | [] => None
  | (section, view_name) :: rest =>
    if str_eqb view_id (view_id_of view_name) then Some section
    else section_of_view view_id rest
  end.

End LoaderRun.

(** ** More sample data *)

Module Example.

(** Years under keys of both kinds, not in order. *)
Definition cfg : config :=
  {| project_id := lit "eavs-392800";
     analytics_dataset := lit "eavs_analytics";
     sections :=
       [ (lit "registration_mappings",
          [ (KInt 2018, VDict [(lit "a", SStr (lit "col_a2"))]);
            (KStr (lit "standard_fields"), VList [lit "fips"; lit "a"; lit "b"]);
            (KStr (lit "2016"), VDict [(lit "a", SStr (lit "col_a"))]);
            (KInt 2024, VDict [(lit "b", SStr (lit "col_b3"))]) ]) ] |}.

Definition views : LoaderRun.warehouse :=
  [ (lit "eavs-392800.eavs_analytics.eavs_county_reg_union",
     concat [ lit "WITH a_reg_2018 AS ("; nl; lit "  SELECT 1"; nl;
              lit "), union_all as ("; nl; lit "  SELECT * FROM a_reg_2018"; nl; lit ")"; nl;
              lit "SELECT * FROM union_all" ]);
    (lit "eavs-392800.eavs_analytics.eavs_county_mail_union", lit "SELECT 1") ].

End Example.

(** The query of a section's view after one pass of the loop body. *)
Definition patch_of (cfg : config) (year section q : str) : str :=
  view_after q (Loader.update_union_view cfg year section q).

(** ** load_denominators_2024.py: update_vep_union_view *)

Module Vep.

Definition dq : str := ["034"%char].

Definition new_cte : str :=
  concat [ lit "  vep_2024 as ("; nl;
           lit "  select"; nl;
           lit "  "; dq; lit "2024"; dq; lit " as election_year,"; nl;
           lit "  STATE_ABV as state_abbr,"; nl;
           lit "  VEP as VEP"; nl;
           lit "  from"; nl;
           lit "  `eavs-392800.us_elections_vep.vep_2024`"; nl;
           nl;
           lit "  )" ].

(** [r"(with\s+)"] under [re.IGNORECASE]. *)
Definition pattern : Re.regex :=
  Re.Grp (Re.seq [Re.ILit (lit "with"); Re.Plus Re.space]).

(** [r"(\s+select \* from vep_\d{4})"] under [re.IGNORECASE]. *)
Definition select_pattern : Re.regex :=
  Re.Grp (Re.seq [Re.Plus Re.space; Re.ILit (lit "select * from vep_"); Re.Rep 4 Re.digit]).

Definition separator : str := concat [nl; nl; lit "  , "].

Definition union_statement : str :=
  concat [nl; lit "    select * from vep_2024"; nl; lit "    UNION ALL"].

Definition update_vep_union_view (existing_sql : str) : outcome :=
  if contains (lit "'2024'") existing_sql || contains (lit "vep_2024") existing_sql
  then AlreadyIncluded
  else
    match Re.search pattern existing_sql with
    | Some found =>
      let updated_sql := splice existing_sql (Re.stop found) (new_cte ++ separator) in
      match Re.search select_pattern updated_sql with
      | Some select_match =>
        Updated (splice updated_sql (Re.start select_match) union_statement)
      | None => SavedForReview (lit "vep_union_MANUAL.sql") updated_sql
      end
    | None => SavedForReview (lit "vep_union_current.sql") existing_sql
    end.

End Vep.

(** Two texts that agree as far as both go. *)
Fixpoint agree (a b : str) : bool :=
  match a, b with
  | x :: a', y :: b' => ascii_eqb x y && agree a' b'
  | _, _ => true
  end.

(** What [update_acs_population_union_view] inserts after the CTE of 2021. *)
Definition acs_block : str := nl ++ Denominators.new_cte ++ lit ",".

(** What [update_vep_union_view] inserts after [with]. *)
Definition vep_block : str := Vep.new_cte ++ Vep.separator.

(** Whether the text from the [k]-th character of [block] on can start a
    match of white space followed by [target], case aside. *)
Definition may_start (target block : str) (k : nat) : bool :=
  match drop_while is_space (drop k block) with
  | [] => true
  | y => agree target (map lower_char y)
  end.

(** ** postload_validation.py: the checks

    A check runs queries and records what it finds.  The answer of the
    warehouse to a query is an argument: the rows, or the message of the
    exception that the client raised. *)

Module Postload.
Import Validation.

Inductive answer (A : Type) :=
| Rows (rows : list A)
| Failed (message : str).
Arguments Rows {A} rows.
Arguments Failed {A} message.

(** The digits of a number, last first, with a comma after every third
    one that has a digit behind it. *)
Fixpoint commas (rev_digits : str) (n : nat) : str :=
  match rev_digits with
  | [] => []
  | c :: r =>
    match n with
    | 3 => ","%char :: c :: commas r 1
    | _ => c :: commas r (S n)
    end
  end.

(** [f"{n:,}"] for an integer. *)
Definition fmt_comma (n : Z) : str :=
  (if (n <? 0)%Z then lit "-" else []) ++ rev (commas (rev (str_of_int (Z.abs n))) 0).

(** [len(rows)] and other counts, as text. *)
Definition str_of_nat (n : nat) : str := str_of_int (Z.of_nat n).

Definition EXPECTED_ROW_RANGES : list (str * (Z * Z)) :=
  [ (lit "a_reg", (3000, 3300)%Z);
    (lit "b_uocava", (3000, 3300)%Z);
    (lit "c_mail", (3000, 3300)%Z);
    (lit "f1_participation", (3000, 3300)%Z) ].

(** [EXPECTED_ROW_RANGES.get(section_code, (2500, 3500))]. *)
Fixpoint range_get (section_code : str) (l : list (str * (Z * Z))) : Z * Z :=
  match l with
  | [] => (2500, 3500)%Z
  | (k, r) :: l' => if str_eqb section_code k then r else range_get section_code l'
  end.

(** The message of the [IndexError] that [rows[0]] raises on no rows. *)
Definition index_error : str := lit "list index out of range".

Definition check_row_count (table_id section_code : str) (count_query : answer Z)
    : ValidationResult :=
  let result := init (lit "Row Count: " ++ table_id) in
  match count_query with
  | Failed e => add_error (lit "Error checking row count: " ++ e) result
  | Rows [] => add_error (lit "Error checking row count: " ++ index_error) result
  | Rows (row_count :: _) =>
    let (expected_min, expected_max) := range_get section_code EXPECTED_ROW_RANGES in
    let result := add_info (lit "Row count: " ++ fmt_comma row_count) result in
    let result :=
      if (row_count <? expected_min)%Z then
        add_warning (concat [lit "Row count ("; fmt_comma row_count;
                             lit ") is below expected minimum ("; fmt_comma expected_min;
                             lit ")"]) result
      else if (expected_max <? row_count)%Z then
        add_warning (concat [lit "Row count ("; fmt_comma row_count;
                             lit ") is above expected maximum ("; fmt_comma expected_max;
                             lit ")"]) result
      else result in
    if (row_count =? 0)%Z then add_error (lit "Table is empty!") result else result
  end.

(** The first part of [check_fips_validity]: rows without a FIPS code. *)
Definition fips_nulls (null_query : answer Z) (result : ValidationResult) : ValidationResult :=
  match null_query with
  | Failed e =>
    add_warning (lit "Could not check FIPS nulls (field may not exist): " ++ e) result
  | Rows [] =>
    add_warning (lit "Could not check FIPS nulls (field may not exist): " ++ index_error)
      result
  | Rows (null_count :: _) =>
    if (0 <? null_count)%Z
    then add_error (fmt_comma null_count ++ lit " rows have NULL or empty FIPS codes") result
    else add_info (lit "All rows have FIPS codes") result
  end.

(** The loop of the second part over the rows [(fips_length, count)]. *)
Fixpoint fips_lengths (rows : list (Z * Z)) (result : ValidationResult) : ValidationResult :=
  match rows with
  | [] => result
  | (fips_length, count) :: rest =>
    fips_lengths rest
      (if negb (fips_length =? 5)%Z
       then add_warning (concat [fmt_comma count; lit " rows have FIPS length ";
                                 str_of_int fips_length; lit " (expected 5)"]) result
       else add_info (fmt_comma count ++ lit " rows have correct FIPS length (5)") result)
  end.

Definition check_fips_validity (table_id : str) (null_query : answer Z)
    (length_query : answer (Z * Z)) : ValidationResult :=
  let result := init (lit "FIPS Validity: " ++ table_id) in
  let result := fips_nulls null_query result in
  match length_query with
  | Rows rows => fips_lengths rows result
  | Failed e => add_warning (lit "Could not check FIPS format: " ++ e) result
  end.

(** The loop of [check_duplicate_fips] over [rows[:5]], rows being
    [(fips, count)]. *)
Fixpoint duplicate_errors (rows : list (str * Z)) (result : ValidationResult)
    : ValidationResult :=
  match rows with
  | [] => result
  | (fips, count) :: rest =>
    duplicate_errors rest
      (add_error (concat [lit "  FIPS "; fips; lit ": "; str_of_int count; lit " times"])
         result)
  end.

(** The check mark of the messages, U+2713, as its UTF-8 bytes. *)
Definition check_mark : str := lit "✓".

Definition check_duplicate_fips (table_id : str) (dup_query : answer (str * Z))
    : ValidationResult :=
  let result := init (lit "Duplicate FIPS: " ++ table_id) in
  match dup_query with
  | Failed e => add_warning (lit "Could not check for duplicates: " ++ e) result
  | Rows [] => add_info (lit "No duplicate FIPS codes " ++ check_mark) result
  | Rows rows =>
    duplicate_errors (take 5 rows)
      (add_error (str_of_nat (length rows) ++ lit " FIPS codes appear multiple times:")
         result)
  end.

(** The exit code that [main] computes from all the results. *)
Definition exit_code (all_results : list ValidationResult) : Z :=
  let total_checks := length all_results in
  let passed_checks := length (List.filter passed all_results) in
  let failed_checks := total_checks - passed_checks in
  if failed_checks =? 0 then 0%Z else 1%Z.

End Postload.

(** ** generate_union_views.py: generate_view_sql

    The template is an argument and the generated text the result; reading
    the one and writing the other are left out. *)

Module Template.

(** [s.replace(old, new)] for a non-empty [old]: the occurrences from left
    to right, none overlapping; [skip] counts the characters of the last
    occurrence still to pass. *)
Fixpoint replace_go (old new : str) (skip : nat) (s : str) : str :=
  match s with
  | [] => []
  | c :: s' =>
    match skip with
    | S k => replace_go old new k s'
    | 0 =>
      if starts_with old s then new ++ replace_go old new (length old - 1) s'
      else c :: replace_go old new 0 s'
    end
  end.

(** [s.replace(old, new)]; an empty [old] puts [new] around every
    character. *)
Definition replace (old new s : str) : str :=
  match old with
  | [] => new ++ flat_map (fun c => c :: new) s
  | _ :: _ => replace_go old new 0 s
  end.

(** [d[k] = v] on a dict with strings for keys. *)
Fixpoint dict_set {A : Type} (k : str) (v : A) (d : list (str * A)) : list (str * A) :=
  match d with
  | [] => [(k, v)]
  | (k', v') :: d' => if str_eqb k k' then (k', v) :: d' else (k', v') :: dict_set k v d'
  end.

(** [year_mappings.items()]: only a dict has items. *)
Definition items (v : value) : result (list (str * source)) :=
  match v with
  | VDict d => Ok d
  | _ => Raise AttributeError
  end.

(** [f"{{{{{standard_field}_{year}}}}}"]. *)
Definition placeholder (standard_field year : str) : str :=
  concat [lit "{{"; standard_field; lit "_"; year; lit "}}"].

(** ["NULL" if source_field == 'null' or source_field is None else
    source_field]: a string, or the value itself when it is no string. *)
Definition replacement (source_field : source) : source :=
  if is_null_word source_field || is_none source_field then SStr (lit "NULL")
  else source_field.

(** The inner loop: the fields of one year. *)
Fixpoint add_fields (year : str) (fields : list (str * source))
    (replacements : list (str * source)) : list (str * source) :=
  match fields with
  | [] => replacements
  | (standard_field, source_field) :: rest =>
    add_fields year rest
      (dict_set (placeholder standard_field year) (replacement source_field) replacements)
  end.

(** The outer loop: the years. *)
Fixpoint add_years (m : mappings) (years : list str) (replacements : list (str * source))
    : result (list (str * source)) :=
  match years with
  | [] => Ok replacements
  | year :: rest =>
    let* year_mappings := TemplateGenerator.year_mappings_of m year in
    let* fields := items year_mappings in
    add_years m rest (add_fields year fields replacements)
  end.

(** The last loop: one [replace] after the other.  [str.replace] takes
    strings only and raises [TypeError] for another value, whether the
    placeholder occurs or not. *)
Fixpoint apply_replacements (replacements : list (str * source)) (generated_sql : str)
    : result str :=
  match replacements with
  | [] => Ok generated_sql
  | (placeholder, SStr replacement) :: rest =>
    apply_replacements rest (replace placeholder replacement generated_sql)
  | (_, _) :: _ => Raise TypeError
  end.

Definition years_of (m : mappings) : list str :=
  map Generator.str_of_key
    (List.filter (fun year => negb (Generator.is_standard_fields year)) (map fst m)).

Definition generate_view_sql (cfg : config) (template mapping_key : str) : result str :=
  let mappings := Generator.mappings_of cfg mapping_key in
  let years := years_of mappings in
  let* replacements := add_years mappings years [] in
  apply_replacements replacements template.

End Template.

(** A value that is a string; a value that is a string or [None]. *)
Definition is_string (v : source) : bool :=
  match v with
  | SStr _ => true
  | _ => false
  end.

Definition string_or_none (v : source) : bool :=
  match v with
  | SOther _ _ => false
  | _ => true
  end.

(** An entry of the replacements whose key opens with two braces. *)
Definition braced (kv : str * source) : Prop := exists x, fst kv = lit "{{" ++ x.

(** ** validate_mappings.py: MappingValidator

    The header of a section's CSV file, which [get_actual_fields] reads, is
    an argument; the sample rows of the result are left out. *)

Module MappingValidator.

Record results := {
  section : str;
  total_actual_fields : nat;
  total_configured_mappings : nat;
  total_standard_fields : nat;
  valid_mappings : list (str * str);
  invalid_mappings : list (str * str);
  missing_mappings : list str;
  corrected_mappings : list (str * str)
}.

(** What [validate_section_mappings] returns: a dict with the one key
    [error], or the results. *)
Inductive section_result :=
| ErrorResult (error : str)
| Results (r : results).

(** [len(v)]; [None] has no length. *)
Definition len_of (v : value) : result nat :=
  match v with
  | VNull => Raise TypeError
  | VList items => Ok (length items)
  | VDict d => Ok (length d)
  end.

(** [standard_field in year_mappings] for the items of a dict. *)
Definition has_key (f : str) (d : list (str * source)) : bool :=
  existsb (fun kv => str_eqb f (fst kv)) d.

(** The three dicts that the first loop fills. *)
Record tally := {
  valid : list (str * str);
  invalid : list (str * str);
  corrected : list (str * str)
}.

(** The loop over the configured mappings.  A value that is neither [None]
    nor a string is in no header; [find_similar_field] then asks for its
    [lower], which it does not have. *)
Fixpoint check_mappings (actual_fields : list str) (fields : list (str * source))
    (t : tally) : result tally :=
  match fields with
  | [] => Ok t
  | (standard_field, source_field) :: rest =>
    match source_field with
    | SNone =>
      check_mappings actual_fields rest
        {| valid := Template.dict_set standard_field (lit "null") (valid t);
           invalid := invalid t; corrected := corrected t |}
    | SStr src =>
      check_mappings actual_fields rest
        (if str_eqb src (lit "null") then
           {| valid := Template.dict_set standard_field (lit "null") (valid t);
              invalid := invalid t; corrected := corrected t |}
         else if str_in src actual_fields then
           {| valid := Template.dict_set standard_field src (valid t);
              invalid := invalid t; corrected := corrected t |}
         else
           {| valid := valid t;
              invalid := Template.dict_set standard_field src (invalid t);
              corrected :=
                match Suggest.find_similar_field src actual_fields with
                | Some similar =>
                  if str_eqb similar [] then corrected t
                  else Template.dict_set standard_field similar (corrected t)
                | None => corrected t
                end |})
    | SOther _ _ => Raise AttributeError
    end
  end.

Definition validate_section_mappings (cfg : config) (year section mapping_key : str)
    (actual_fields : list str) : result section_result :=
  match actual_fields with
  | [] => Ok (ErrorResult (lit "Could not read fields for section " ++ section))
  | _ :: _ =>
    let mappings := Generator.mappings_of cfg mapping_key in
    let* year_mappings := Generator.year_mappings_of mappings year in
    let standard_fields := get_default mappings (KStr (lit "standard_fields")) (VList []) in
    if negb (truthy year_mappings)
    then Ok (ErrorResult (concat [lit "No "; year; lit " mappings found for "; mapping_key]))
    else
      let* n_mappings := len_of year_mappings in
      let* n_standard := len_of standard_fields in
      let* fields := Template.items year_mappings in
      let* t := check_mappings actual_fields fields
                  {| valid := []; invalid := []; corrected := [] |} in
      let* standard := iterate standard_fields in
      Ok (Results
            {| section := section;
               total_actual_fields := length actual_fields;
               total_configured_mappings := n_mappings;
               total_standard_fields := n_standard;
               valid_mappings := valid t;
               invalid_mappings := invalid t;
               missing_mappings := List.filter (fun f => negb (has_key f fields)) standard;
               corrected_mappings := corrected t |})
  end.

Definition sections_to_validate : list (str * str) :=
  [ (lit "a_reg", lit "registration_mappings");
    (lit "b_uocava", lit "uocava_mappings");
    (lit "c_mail", lit "mail_mappings");
    (lit "f1_participation", lit "participation_mappings") ].

(** [validation_results[section] = results]. *)
Fixpoint set_result (k : str) (v : section_result) (d : list (str * section_result))
    : list (str * section_result) :=
  match d with
  | [] => [(k, v)]
  | (k', v') :: d' => if str_eqb k k' then (k', v) :: d' else (k', v') :: set_result k v d'
  end.

(** The loop of [run_validation]; [actual_fields_of] is what
    [get_actual_fields] reads for a section. *)
Fixpoint validate_sections (cfg : config) (year : str) (actual_fields_of : str -> list str)
    (todo : list (str * str)) (validation_results : list (str * section_result))
    : result (list (str * section_result)) :=
  match todo with
  | [] => Ok validation_results
  | (section, mapping_key) :: rest =>
    let* results :=
      validate_section_mappings cfg year section mapping_key (actual_fields_of section) in
    validate_sections cfg year actual_fields_of rest
      (set_result section results validation_results)
  end.

Definition run_validation (cfg : config) (year : str) (actual_fields_of : str -> list str)
    : result (list (str * section_result)) :=
  validate_sections cfg year actual_fields_of sections_to_validate [].

(** The corrected configuration: mapping key, then year, then field. *)
Definition correction := list (str * list (Z * list (str * str))).

Fixpoint get_key (k : str) (d : correction) : option (list (Z * list (str * str))) :=
  match d with
  | [] => None
  | (k', v) :: d' => if str_eqb k k' then Some v else get_key k d'
  end.

Fixpoint set_key (k : str) (v : list (Z * list (str * str))) (d : correction) : correction :=
  match d with
  | [] => [(k, v)]
  | (k', v') :: d' => if str_eqb k k' then (k', v) :: d' else (k', v') :: set_key k v d'
  end.

Fixpoint set_year (y : Z) (v : list (str * str)) (d : list (Z * list (str * str)))
    : list (Z * list (str * str)) :=
  match d with
  | [] => [(y, v)]
  | (y', v') :: d' => if (y =? y')%Z then (y', v) :: d' else (y', v') :: set_year y v d'
  end.

(** [year_mappings.update(d)] and the loop [year_mappings[field] = value]. *)
Definition update_all (d year_mappings : list (str * str)) : list (str * str) :=
  fold_left (fun acc kv => Template.dict_set (fst kv) (snd kv) acc) d year_mappings.

(** The year's mappings that [generate_corrected_config] builds from one
    section's results. *)
Definition corrected_year_mappings (r : results) : list (str * str) :=
  let year_mappings := update_all (valid_mappings r) [] in
  let year_mappings := update_all (corrected_mappings r) year_mappings in
  fold_left (fun acc field => Template.dict_set field (lit "null") acc)
    (missing_mappings r) year_mappings.

Fixpoint correct_sections (year : str) (values : list section_result)
    (corrected_config : correction) : result correction :=
  match values with
  | [] => Ok corrected_config
  | ErrorResult _ :: rest => correct_sections year rest corrected_config
  | Results r :: rest =>
    match Loader.assoc (section r) Loader.config_map with
    | None => correct_sections year rest corrected_config
    | Some mapping_key =>
      let year_mappings := corrected_year_mappings r in
      let* y := py_int year in
      correct_sections year rest
        (match get_key mapping_key corrected_config with
         | None => set_key mapping_key [(y, year_mappings)] corrected_config
         | Some by_year =>
           set_key mapping_key (set_year y year_mappings by_year) corrected_config
         end)
    end
  end.

Definition generate_corrected_config (year : str)
    (validation_results : list (str * section_result)) : result correction :=
  correct_sections year (map snd validation_results) [].

(** A source name that is ['null'] or a column of one of the files. *)
Definition real_source (actual_fields_of : str -> list str) (v : str) : Prop :=
  v = lit "null" \/ exists section, In v (actual_fields_of section).

End MappingValidator.

(** Every value of a dict from strings to strings satisfies [P]. *)
Definition vals_ok (P : str -> Prop) (d : list (str * str)) : Prop :=
  Forall (fun kv => P (snd kv)) d.

(** The results of a section name only real sources as valid or as
    corrections. *)
Definition good_result (actual_fields_of : str -> list str)
    (sr : MappingValidator.section_result) : Prop :=
  match sr with
  | MappingValidator.ErrorResult _ => True
  | MappingValidator.Results r =>
    vals_ok (MappingValidator.real_source actual_fields_of) (MappingValidator.valid_mappings r)
    /\ vals_ok (MappingValidator.real_source actual_fields_of)
         (MappingValidator.corrected_mappings r)
  end.

(** Every year of a corrected mapping names only real sources. *)
Definition years_ok (actual_of : str -> list str) (d : list (Z * list (str * str))) : Prop :=
  Forall (fun ye => vals_ok (MappingValidator.real_source actual_of) (snd ye)) d.

(** ** preflight_validation.py: validate_section

    The header of the CSV file, which [get_csv_headers] reads, is an
    argument. *)

Module Preflight.

Definition SECTION_TO_MAPPING : list (str * str) :=
  [ (lit "a_reg", lit "registration_mappings");
    (lit "b_uocava", lit "uocava_mappings");
    (lit "c_mail", lit "mail_mappings");
    (lit "f1_participation", lit "participation_mappings") ].

(** Truth value of [d.get(k)]. *)
Definition truthy_opt (o : option value) : bool :=
  match o with
  | Some v => truthy v
  | None => false
  end.

(** [section_mappings.get(year) or section_mappings.get(int(year))]: the
    second lookup, and [int], only when the first gives nothing true. *)
Definition year_mappings_of (m : mappings) (year : str) : result (option value) :=
  if truthy_opt (dict_get (KStr year) m) then Ok (dict_get (KStr year) m)
  else
    let* y := py_int year in
    Ok (dict_get (KInt y) m).

(** The loop over the mapped fields: the fields mapped to NULL and the
    descriptions of the fields whose source the header lacks.  A value that
    is neither [None] nor a string is not in the header, and has no
    [lower]. *)
Fixpoint scan (csv_headers csv_headers_lower : list str) (fields : list (str * source))
    (null_mapped_fields missing_fields : list str) : result (list str * list str) :=
  match fields with
  | [] => Ok (null_mapped_fields, missing_fields)
  | (standard_field, source_field) :: rest =>
    match source_field with
    | SNone =>
      scan csv_headers csv_headers_lower rest (null_mapped_fields ++ [standard_field])
        missing_fields
    | SStr src =>
      if str_eqb src (lit "null") then
        scan csv_headers csv_headers_lower rest (null_mapped_fields ++ [standard_field])
          missing_fields
      else if negb (str_in src csv_headers) && negb (str_in (lower src) csv_headers_lower)
      then
        scan csv_headers csv_headers_lower rest null_mapped_fields
          (missing_fields ++ [concat [standard_field; lit " (expects: "; src; lit ")"]])
      else scan csv_headers csv_headers_lower rest null_mapped_fields missing_fields
    | SOther _ _ => Raise AttributeError
    end
  end.

(** The distinct elements of a list, as a set has them. *)
Fixpoint distinct (l : list str) : list str :=
  match l with
  | [] => []
  | x :: l' => if str_in x l' then distinct l' else x :: distinct l'
  end.

(** The source names of a mapping other than [None] and ['null']; when the
    loop above is over without an exception, every value is a string or
    [None]. *)
Definition mapped_source_fields (fields : list (str * source)) : list str :=
  flat_map (fun kv => match snd kv with
                      | SStr src => if str_eqb src (lit "null") then [] else [src]
                      | _ => []
                      end) fields.

Definition bullet (field : str) : str := lit "  - " ++ field.

Definition validate_section (field_mappings : config) (year section_code : str)
    (csv_headers : list str) (strict : bool) : result (bool * list str * list str) :=
  match Loader.assoc section_code SECTION_TO_MAPPING with
  | None => Ok (false, [], [lit "Unknown section: " ++ section_code])
  | Some mapping_key =>
    let section_mappings := Generator.mappings_of field_mappings mapping_key in
    let* year_mappings := year_mappings_of section_mappings year in
    match year_mappings with
    | None =>
      Ok (false, [], [concat [lit "No field mappings found for "; year; lit " in "; mapping_key]])
    | Some ym =>
      if negb (truthy ym) then
        Ok (false, [],
            [concat [lit "No field mappings found for "; year; lit " in "; mapping_key]])
      else
        match csv_headers with
        | [] => Ok (false, [], [lit "Could not read CSV headers"])
        | _ :: _ =>
          let csv_headers_lower := map lower csv_headers in
          let* fields := Template.items ym in
          let* scanned := scan csv_headers csv_headers_lower fields [] [] in
          let (null_mapped_fields, missing_fields) := scanned in
          let warnings :=
            match null_mapped_fields with
            | _ :: _ =>
              if negb strict
              then [Postload.str_of_nat (length null_mapped_fields)
                    ++ lit " fields mapped to NULL (expected for this year)"]
              else []
            | [] => []
            end in
          let errors :=
            match missing_fields with
            | _ :: _ =>
              [concat [lit "Missing "; Postload.str_of_nat (length missing_fields);
                       lit " expected fields:"]]
              ++ map bullet (take 10 missing_fields)
              ++ (if 10 <? length missing_fields
                  then [concat [lit "  ... and ";
                                Postload.str_of_nat (length missing_fields - 10);
                                lit " more"]]
                  else [])
            | [] => []
            end in
          let mapped := mapped_source_fields fields in
          let extra_fields :=
            distinct (List.filter (fun h => negb (str_in h mapped)) csv_headers) in
          let warnings :=
            match extra_fields with
            | _ :: _ =>
              if strict then
                warnings
                ++ [concat [Postload.str_of_nat (length extra_fields);
                            lit " unmapped fields in CSV (may be new data):"]]
                ++ map bullet (take 5 (sorted extra_fields))
                ++ (if 5 <? length extra_fields
                    then [concat [lit "  ... and ";
                                  Postload.str_of_nat (length extra_fields - 5);
                                  lit " more"]]
                    else [])
              else warnings
            | [] => warnings
            end in
          let success := length errors =? 0 in
          Ok (success, warnings, errors)
        end
    end
  end.

End Preflight.

(** ** The header of a file, for the examples *)

Module ExampleFiles.

Definition actual_fields_of (section : str) : list str :=
  if str_eqb section (lit "a_reg") then [lit "FIPS"; lit "COL_A2"] else [].

End ExampleFiles.

(** The header has the source name, as it is written or case aside. *)
Definition found_in (csv_headers : list str) (src : str) : bool :=
  str_in src csv_headers || str_in (lower src) (map lower csv_headers).

(** ** Reading a generated block back

    The output columns of a year block, read from its text as a test of the
    view reads them: one select item on each line between the [SELECT] and
    the [FROM], the alias of an item the last word of its line. *)










(** * Properties *)

Section TextFacts.

Lemma ascii_eqb_eq a b : ascii_eqb a b = true <-> a = b.
Proof.
  unfold ascii_eqb, code. rewrite N.eqb_eq. split; [|congruence].
  intros H. rewrite <- (ascii_N_embedding a), <- (ascii_N_embedding b). congruence.
Qed.

Lemma str_eqb_eq a b : str_eqb a b = true <-> a = b.
Proof.
  revert b. induction a as [|x a IH]; intros [|y b]; simpl; try (split; congruence).
  rewrite andb_true_iff, ascii_eqb_eq, IH. split; [intros [-> ->]; reflexivity|].
  intros H; injection H; auto.
Qed.

Lemma starts_with_spec p s : starts_with p s = true <-> exists t, s = p ++ t.
Proof.
  revert s. induction p as [|x p IH]; intros s; simpl.
  - split; eauto.
  - destruct s as [|y s].
    + split; [discriminate|]. intros [t H]. discriminate.
    + rewrite andb_true_iff, ascii_eqb_eq, IH. split.
      * intros [-> [t ->]]. eauto.
      * intros [t H]. injection H as -> ->. eauto.
Qed.

Lemma contains_spec needle hay :
  contains needle hay = true <-> exists pre post, hay = pre ++ needle ++ post.
Proof.
  induction hay as [|c hay IH]; simpl.
  - rewrite orb_false_r, starts_with_spec. split.
    + intros [t H]. exists [], t. exact H.
    + intros (pre & post & H). destruct pre; [|discriminate]. eauto.
  - rewrite orb_true_iff, starts_with_spec, IH. split.
    + intros [[t H] | (pre & post & H)].
      * exists [], t. exact H.
      * exists (c :: pre), post. simpl. congruence.
    + intros (pre & post & H). destruct pre as [|d pre]; simpl in H.
      * left. eauto.
      * right. injection H as -> ->. eauto.
Qed.

Lemma contains_splice needle s p x :
  contains needle x = true -> contains needle (splice s p x) = true.
Proof.
  rewrite !contains_spec. intros (pre & post & ->). unfold splice.
  exists (take p s ++ pre), (post ++ drop p s). now rewrite <- !app_assoc.
Qed.

Lemma splice_sublist s p x : s `sublist_of` splice s p x.
Proof.
  unfold splice. rewrite <- (take_drop p s) at 1.
  apply sublist_app; [reflexivity|]. apply sublist_inserts_l. reflexivity.
Qed.

End TextFacts.

Section ValidationFacts.
Import Validation.

Lemma run_passed calls r :
  passed (run calls r) = passed r && forallb (fun c => negb (is_error c)) calls.
Proof.
  revert r. induction calls as [|c calls IH]; intros r; simpl.
  - now rewrite andb_true_r.
  - unfold run in IH. rewrite IH. destruct c; simpl; try reflexivity.
    now rewrite andb_false_r.
Qed.

(** C9. Validation-result invariant: starting from a fresh
    [ValidationResult] and after any sequence of [add_info], [add_warning]
    and [add_error] calls, [passed] is true exactly when [add_error] was
    never called; in particular info and warning calls leave [passed] as it
    is. *)
Theorem passed_iff_no_error (name : str) (calls : list Validation.call) :
  (Validation.passed (Validation.run calls (Validation.init name)) = true
     <-> forall m, ~ In (Validation.AddError m) calls)
  /\ (forall r m, Validation.passed (Validation.add_warning m r) = Validation.passed r)
  /\ (forall r m, Validation.passed (Validation.add_info m r) = Validation.passed r).
Proof.
  split; [|split; reflexivity].
  rewrite run_passed. simpl. rewrite forallb_forall. split.
  - intros H m Hin. specialize (H _ Hin). discriminate.
  - intros H c Hin. destruct c; try reflexivity. elim (H _ Hin).
Qed.

End ValidationFacts.

Section SuggestFacts.
Import Suggest.

Lemma first_field_In test l f : first_field test l = Some f -> In f l.
Proof.
  unfold first_field. induction l as [|x l IH]; simpl; [discriminate|].
  destruct (test x); [intros [= ->]; auto | auto].
Qed.

Lemma first_some_elim {A B} (f : A -> option B) l y :
  first_some f l = Some y -> exists x, In x l /\ f x = Some y.
Proof.
  induction l as [|x l IH]; simpl; [discriminate|].
  destruct (f x) eqn:E.
  - intros [= ->]. eauto.
  - intros H. destruct (IH H) as (x' & ? & ?). eauto.
Qed.

(** C10. Fuzzy suggestions are drawn only from real fields:
    [find_similar_field] returns either [None] or an element of the list of
    available fields it was given. *)
Theorem find_similar_field_from_available (target : str) (available_fields : list str) :
  Suggest.find_similar_field target available_fields = None
  \/ exists field, Suggest.find_similar_field target available_fields = Some field
                   /\ In field available_fields.
Proof.
  destruct (find_similar_field target available_fields) as [field|] eqn:E; [right|left; reflexivity].
  exists field. split; [reflexivity|].
  unfold find_similar_field in E.
  destruct (first_field _ available_fields) as [f1|] eqn:E1.
  { injection E as <-. eapply first_field_In, E1. }
  destruct (first_field _ available_fields) as [f2|] eqn:E2 in E.
  { injection E as <-. eapply first_field_In, E2. }
  apply first_some_elim in E. destruct E as ([pattern alts] & _ & E).
  destruct (contains pattern (lower target)); [|discriminate].
  apply first_some_elim in E. destruct E as (alt & _ & E).
  eapply first_field_In, E.
Qed.

End SuggestFacts.

(** ** The incremental patcher *)

Section PatcherFacts.
Import Loader.

(** Python's [s[:p] + x + s[p:]] at two places, possibly with nothing to
    insert. *)
Lemma splice_nil s : splice s 0 [] = s.
Proof. unfold splice. now rewrite take_0, drop_0. Qed.

Lemma insert_cte_cases existing_sql new_cte section :
  insert_cte existing_sql new_cte section = existing_sql
  \/ exists p, insert_cte existing_sql new_cte section
               = splice existing_sql p (lit "," ++ nl ++ new_cte).
Proof.
  unfold insert_cte.
  destruct (Re.findall _ existing_sql); destruct (Re.search _ existing_sql); eauto.
Qed.

Lemma add_union_arm_cases year sql section :
  add_union_arm year sql section = sql
  \/ exists p, add_union_arm year sql section = splice sql p (union_addition year section).
Proof.
  unfold add_union_arm. destruct (rev _); eauto.
Qed.

Lemma marker_in_union_addition year section :
  contains (marker year section) (union_addition year section) = true.
Proof.
  apply contains_spec. exists (nl ++ lit "UNION ALL" ++ nl ++ lit "SELECT * FROM "), [].
  unfold union_addition, marker. simpl. now rewrite !app_nil_r.
Qed.

Lemma marker_app year section post :
  marker year section ++ post = section ++ lit "_" ++ year ++ post.
Proof. unfold marker. simpl. now rewrite app_nil_r, <- app_assoc. Qed.

Lemma contains_app_r needle a b : contains needle b = true -> contains needle (a ++ b) = true.
Proof.
  rewrite !contains_spec. intros (pre & post & ->). exists (a ++ pre), post.
  now rewrite <- app_assoc.
Qed.

Lemma contains_prefix_of needle pre rest :
  contains needle (pre ++ needle ++ rest) = true.
Proof. apply contains_spec. eauto. Qed.

(** The CTE that [_generate_year_cte] builds carries the marker of its
    year. *)
Lemma generated_cte_has_marker cfg year section new_cte :
  _generate_year_cte cfg year section = Ok (Some new_cte) ->
  contains (marker year section) new_cte = true.
Proof.
  unfold _generate_year_cte.
  destruct (assoc section config_map); [|discriminate].
  destruct (section_get _ _); [|discriminate].
  destruct (year_fields_of _ _) as [yf|]; simpl; [|discriminate].
  destruct (truthy yf); simpl; [|discriminate].
  destruct (iterate _); simpl; [|discriminate].
  destruct (selections_of _ _); simpl; [|discriminate].
  intros [= <-]. apply contains_spec. unfold cte_text.
  eexists (lit "  "), _. rewrite marker_app. simpl. reflexivity.
Qed.

Lemma insert_cte_into_view_cases year existing_sql new_cte section :
  contains (marker year section) new_cte = true ->
  _insert_cte_into_view year existing_sql new_cte section = existing_sql
  \/ contains (marker year section)
       (_insert_cte_into_view year existing_sql new_cte section) = true.
Proof.
  intros Hm. unfold _insert_cte_into_view.
  destruct (add_union_arm_cases year (insert_cte existing_sql new_cte section) section)
    as [-> | [p ->]].
  - destruct (insert_cte_cases existing_sql new_cte section) as [-> | [p ->]]; [now left|].
    right. apply contains_splice. now apply contains_app_r, contains_app_r.
  - right. apply contains_splice, marker_in_union_addition.
Qed.

Lemma update_union_view_marker cfg year section existing_sql :
  contains (marker year section) existing_sql = true ->
  update_union_view cfg year section existing_sql = AlreadyIncluded.
Proof. unfold update_union_view. now intros ->. Qed.

Lemma update_union_view_after cfg year section existing_sql :
  let s' := view_after existing_sql (update_union_view cfg year section existing_sql) in
  s' = existing_sql \/ contains (marker year section) s' = true.
Proof.
  simpl. unfold update_union_view.
  destruct (contains _ existing_sql) eqn:Hc; [now left|].
  destruct (_generate_year_cte cfg year section) as [[new_cte|]|] eqn:Hg; simpl; auto.
  destruct (str_eqb new_cte []); simpl; auto.
  apply insert_cte_into_view_cases. eapply generated_cte_has_marker, Hg.
Qed.

End PatcherFacts.

Section DenominatorFacts.
Import Denominators.



End DenominatorFacts.


(** C8. The CTE-insertion step is pure insertion: the text that
    [_insert_cte_into_view] returns is the existing text with new text put
    in at no more than two places, so the existing text is a subsequence of
    it, every character kept and in its order. *)
Theorem insert_cte_into_view_pure_insertion (year existing_sql new_cte section : str) :
  (exists p1 x1 p2 x2,
      Loader._insert_cte_into_view year existing_sql new_cte section
      = splice (splice existing_sql p1 x1) p2 x2)
  /\ existing_sql `sublist_of` Loader._insert_cte_into_view year existing_sql new_cte section.
Proof.
  assert (H : exists p1 x1 p2 x2,
      Loader._insert_cte_into_view year existing_sql new_cte section
      = splice (splice existing_sql p1 x1) p2 x2).
  { unfold Loader._insert_cte_into_view.
    destruct (insert_cte_cases existing_sql new_cte section) as [E1 | [p1 E1]];
      rewrite E1.
    - exists 0, [].
      destruct (add_union_arm_cases year existing_sql section) as [E2 | [p2 E2]];
        rewrite E2, splice_nil.
      + exists 0, []. now rewrite splice_nil.
      + eauto.
    - exists p1, (lit "," ++ nl ++ new_cte).
      match goal with |- context [Loader.add_union_arm year ?s section] =>
        destruct (add_union_arm_cases year s section) as [E2 | [p2 E2]]; rewrite E2 end.
      + exists 0, []. now rewrite splice_nil.
      + eauto. }
  split; [exact H|].
  destruct H as (p1 & x1 & p2 & x2 & ->).
  etransitivity; apply splice_sublist.
Qed.

(** ** Looking a year up in a section's mapping *)

Section LookupFacts.

Lemma digit_range c : is_digit c = true -> (48 <= code c <= 57)%N.
Proof.
  unfold is_digit, in_range. rewrite andb_true_iff, !N.leb_le. tauto.
Qed.

Lemma digit_not_space c : is_digit c = true -> is_space c = false.
Proof.
  intros H%digit_range. unfold is_space, in_range.
  repeat (apply orb_false_iff; split); apply andb_false_iff;
    rewrite !N.leb_gt; lia.
Qed.

Lemma digit_not_int_space c : is_digit c = true -> is_int_space c = false.
Proof.
  intros H%digit_range. unfold is_int_space, in_range.
  repeat (apply orb_false_iff; split); apply andb_false_iff;
    rewrite !N.leb_gt; lia.
Qed.

Lemma digit_not_char c (x : ascii) :
  is_digit c = true -> (code x < 48 \/ 57 < code x)%N -> ascii_eqb c x = false.
Proof.
  intros H%digit_range Hx. unfold ascii_eqb. apply N.eqb_neq. lia.
Qed.

Lemma py_int_four_digit year :
  four_digit year = true -> py_int year = Ok (year_number year).
Proof.
  destruct year as [|a [|b [|c [|d [|]]]]]; try discriminate. simpl.
  rewrite !andb_true_iff. intros [[[Ha Hb] Hc] Hd].
  unfold py_int, int_strip. simpl.
  rewrite (digit_not_int_space _ Ha). simpl.
  rewrite (digit_not_int_space _ Hd). simpl.
  rewrite (digit_not_char a "+" Ha), (digit_not_char a "-" Ha)
    by (vm_compute; left; reflexivity).
  simpl. rewrite Ha, Hb, Hc, Hd. reflexivity.
Qed.

End LookupFacts.

(** C3 as the specification words it, for the generator: a mapping stored
    under the string form of the year would be the one returned.  With both
    forms present the generator returns the one under the integer. *)
Lemma year_lookup_string_priority_fails :
  let year := lit "2024" in
  let under_str := VDict [(lit "a", SStr (lit "from_str"))] in
  let under_int := VDict [(lit "a", SStr (lit "from_int"))] in
  let m := [(KStr year, under_str); (KInt 2024, under_int)] in
  four_digit year = true
  /\ dict_get (KStr year) m = Some under_str
  /\ Generator.year_mappings_of m year = Ok under_int
  /\ TemplateGenerator.year_mappings_of m year = Ok under_int
  /\ under_int <> under_str.
Proof. repeat split; try reflexivity. discriminate. Qed.

(** C3, amended.  For a year of four digits the lookup of the year's
    mapping never raises and finds a mapping stored under either form of
    the key.  [_generate_year_cte] tries the string form first and the
    integer second; [generate_union_select] and [generate_view_sql] try the
    integer form first and the string second.  With neither present the
    result is the empty mapping. *)
Theorem year_lookup_either_key (m : mappings) (year : str)
    (Hyear : four_digit year = true) :
  let n := year_number year in
  Loader.year_fields_of m year
    = Ok (match dict_get (KStr year) m, dict_get (KInt n) m with
          | Some v, _ => v
          | None, Some v => v
          | None, None => VDict []
          end)
  /\ Generator.year_mappings_of m year
    = Ok (match dict_get (KInt n) m, dict_get (KStr year) m with
          | Some v, _ => v
          | None, Some v => v
          | None, None => VDict []
          end)
  /\ TemplateGenerator.year_mappings_of m year = Generator.year_mappings_of m year.
Proof.
  intros n. unfold Loader.year_fields_of, Generator.year_mappings_of,
    TemplateGenerator.year_mappings_of, get_default.
  rewrite (py_int_four_digit _ Hyear). simpl. fold n.
  repeat split; destruct (dict_get (KStr year) m), (dict_get (KInt n) m); reflexivity.
Qed.

Lemma year_lookup_either_key_witness :
  Generator.year_mappings_of [(KStr (lit "2024"), VList [lit "x"])] (lit "2024")
  = Ok (VList [lit "x"]).
Proof.
  exact (proj1 (proj2 (year_lookup_either_key
           [(KStr (lit "2024"), VList [lit "x"])] (lit "2024") eq_refl))).
Defined.

(** ** The union SQL generator *)

Section GeneratorFacts.
Import Generator.

Lemma field_select_cases src f :
  field_select src f
  = if null_or_absent src then lit "NULL as " ++ f else source_str src ++ lit " as " ++ f.
Proof.
  unfold field_select.
  destruct src as [|e|truth text]; cbn [is_null_word is_none null_or_absent source_str orb].
  - simpl. now rewrite app_nil_r.
  - rewrite orb_false_r. destruct (str_eqb e (lit "null")); simpl; now rewrite app_nil_r.
  - simpl. now rewrite app_nil_r.
Qed.

Lemma mapped_selects_dict d fields :
  mapped_selects (VDict d) fields
  = Ok (map (fun f => let src := field_get f d in
                      if null_or_absent src then lit "NULL as " ++ f
                      else source_str src ++ lit " as " ++ f)
            (List.filter non_base fields)).
Proof.
  induction fields as [|f fields IH]; [reflexivity|].
  cbn [mapped_selects List.filter]. unfold non_base at 1.
  destruct (str_in f base_fields); cbn [negb map]; [exact IH|].
  rewrite IH. cbn [bind value_get]. do 2 f_equal. apply field_select_cases.
Qed.

Lemma union_blocks_of_flat_map cfg mapping_key section_code years :
  union_blocks_of cfg mapping_key section_code years
  = flat_map (fun y => match generate_union_select cfg y mapping_key section_code with
                       | Ok b => [b]
                       | Raise _ => []
                       end) years.
Proof.
  induction years as [|y years IH]; simpl; [reflexivity|].
  destruct (generate_union_select cfg y mapping_key section_code); simpl; now rewrite IH.
Qed.

Lemma union_blocks_of_nil cfg mapping_key section_code years :
  union_blocks_of cfg mapping_key section_code years = []
  <-> forall y, In y years ->
        exists e, generate_union_select cfg y mapping_key section_code = Raise e.
Proof.
  induction years as [|y years IH]; simpl.
  - split; [intros _ y []|reflexivity].
  - destruct (generate_union_select cfg y mapping_key section_code) as [b|e] eqn:E.
    + split; [discriminate|]. intros H. destruct (H y (or_introl eq_refl)) as [e He].
      congruence.
    + rewrite IH. split.
      * intros H y' [<- | Hin]; eauto.
      * intros H y' Hin. apply H. now right.
Qed.

End GeneratorFacts.

Section LoaderFacts.
Import Loader.

Lemma loader_test src :
  source_truth src && negb (is_null_word src) = negb (null_or_absent src || empty_source src).
Proof.
  destruct src as [|e|truth text]; cbn [source_truth is_null_word null_or_absent empty_source].
  - reflexivity.
  - now destruct (str_eqb e []), (str_eqb e (lit "null")).
  - now destruct truth.
Qed.

Lemma selections_of_dict d fields :
  selections_of (VDict d) fields
  = Ok (map (fun f => let src := field_get f d in
                      if null_or_absent src || empty_source src then lit "NULL AS " ++ f
                      else source_str src ++ lit " AS " ++ f)
            (List.filter not_election_year fields)).
Proof.
  induction fields as [|f fields IH]; [reflexivity|].
  cbn [selections_of List.filter]. unfold not_election_year at 1.
  destruct (str_eqb f (lit "election_year")); cbn [negb map]; [exact IH|].
  rewrite IH. cbn [bind value_get]. do 2 f_equal. rewrite loader_test.
  destruct (null_or_absent (field_get f d) || empty_source (field_get f d));
    simpl; now rewrite app_nil_r.
Qed.

End LoaderFacts.

Section FallbackFacts.

Lemma entry_is_null (kw src f : str) (c : bool) :
  (if c then lit "NULL" ++ kw ++ f else src ++ kw ++ f) = lit "NULL" ++ kw ++ f
  <-> c = true \/ str_eqb src (lit "NULL") = true.
Proof.
  rewrite str_eqb_eq. destruct c.
  - split; [now left|reflexivity].
  - split.
    + intros H. right. now apply app_inv_tail in H.
    + intros [H | ->]; [discriminate|reflexivity].
Qed.

End FallbackFacts.

(** C4 as the specification words it: NULL exactly for the sentinel or a
    missing value.  In the CTE that the loader builds for 2024 from
    [Sample.cfg], field [a] is bound to the empty string, which is neither,
    and is written [NULL AS a].  In [Sample.odd] the values of [a], [b] and
    [c] for 2020 are the text [NULL], a zero and the empty string, none of
    them the sentinel or missing: the generator writes [NULL as a], and the
    loader [NULL AS] for the three of them. *)
Lemma null_fallback_fails_on_empty_source :
  let d := [(lit "a", SStr []); (lit "b", SStr (lit "col_b3"))] in
  let d' := [(lit "a", SStr (lit "NULL")); (lit "b", SOther false (lit "0"));
             (lit "c", SStr [])] in
  (exists m, section_get (lit "registration_mappings") (sections Sample.cfg) = Some m
             /\ Loader.year_fields_of m (lit "2024") = Ok (VDict d))
  /\ field_get (lit "a") d = SStr []
  /\ null_or_absent (field_get (lit "a") d) = false
  /\ Loader._generate_year_cte Sample.cfg (lit "2024") (lit "a_reg")
     = Ok (Some (join nl
                   [ lit "  a_reg_2024 AS (";
                     lit "  SELECT";
                     lit "    '2024' AS election_year,";
                     lit "    NULL AS fips,";
                     lit "    NULL AS state,";
                     lit "    NULL AS county,";
                     lit "    NULL AS a,";
                     lit "    col_b3 AS b";
                     lit "  FROM";
                     lit "    `eavs_2024.eavs_county_24_a_reg`";
                     lit "  )" ]))
  /\ (exists m, section_get (lit "registration_mappings") (sections Sample.odd) = Some m
                /\ Loader.year_fields_of m (lit "2020") = Ok (VDict d')
                /\ Generator.year_mappings_of m (lit "2020") = Ok (VDict d'))
  /\ map (fun f => null_or_absent (field_get f d')) [lit "a"; lit "b"; lit "c"]
     = [false; false; false]
  /\ Generator.generate_union_select Sample.odd (lit "2020") (lit "registration_mappings")
       (lit "a_reg")
     = Ok (join nl
             [ lit "-- 2020 Data";
               lit "SELECT ";
               lit "  fips,";
               lit "  '2020' as election_year,";
               lit "  state,";
               lit "  county,";
               lit "  state_abbr,";
               lit "  county_name,";
               lit "  NULL as a,";
               lit "  0 as b,";
               lit "   as c";
               lit "FROM `eavs-392800.eavs_2020.eavs_county_20_A_REG`" ])
  /\ Loader._generate_year_cte Sample.odd (lit "2020") (lit "a_reg")
     = Ok (Some (join nl
                   [ lit "  a_reg_2020 AS (";
                     lit "  SELECT";
                     lit "    '2020' AS election_year,";
                     lit "    NULL AS fips,";
                     lit "    NULL AS a,";
                     lit "    NULL AS b,";
                     lit "    NULL AS c";
                     lit "  FROM";
                     lit "    `eavs_2020.eavs_county_20_a_reg`";
                     lit "  )" ])).
Proof.
  split; [eexists; split; reflexivity|].
  do 3 (split; [reflexivity|]).
  split; [eexists; repeat split; reflexivity|].
  repeat split; reflexivity.
Qed.

(** C4, amended.  NULL-fallback law.  When the year's mapping is a dict,
    [generate_union_select] writes, after the base columns and for every
    standard field that is not a base field, in the declared order,
    [NULL as <field>] if the value of the field is the ['null'] sentinel or
    the field has no value (it is missing or [None]), and
    [<value> as <field>] otherwise, with the text of the value; so the
    entry of a field is the text [NULL as <field>] if and only if the value
    is the sentinel, the field has no value, or the value is written [NULL]
    itself.  [_generate_year_cte], when the year's mapping is a dict that
    is not empty, does the same with [AS] for every standard field other
    than [election_year], and writes [NULL AS <field>] also for a value
    that is false as a condition (the empty string, a zero, [false], an
    empty list); so its entry is the text [NULL AS <field>] if and only if
    the value is the sentinel, the field has no value, the value is false
    as a condition, or it is written [NULL] itself. *)
Theorem null_fallback_law (cfg : config) (year mapping_key section_code section config_key : str)
    (m : mappings) (d dl : list (str * source)) (fields fieldsl : list str) :
  let entry (f : str) :=
    if null_or_absent (field_get f d) then lit "NULL as " ++ f
    else source_str (field_get f d) ++ lit " as " ++ f in
  let entryl (f : str) :=
    if null_or_absent (field_get f dl) || empty_source (field_get f dl)
    then lit "NULL AS " ++ f
    else source_str (field_get f dl) ++ lit " AS " ++ f in
  (Generator.year_mappings_of (Generator.mappings_of cfg mapping_key) year = Ok (VDict d) ->
   iterate (Generator.get_standard_fields cfg mapping_key) = Ok fields ->
   Generator.generate_union_select cfg year mapping_key section_code
   = Ok (lit "-- " ++ year ++ lit " Data" ++ nl
         ++ lit "SELECT " ++ nl
         ++ lit "  "
         ++ join (lit "," ++ nl ++ lit "  ")
              ([ lit "fips"; lit "'" ++ year ++ lit "' as election_year"; lit "state";
                 lit "county"; lit "state_abbr"; lit "county_name" ]
               ++ map entry (List.filter non_base fields))
         ++ nl
         ++ lit "FROM " ++ Generator.from_clause cfg year section_code))
  /\ (forall f, entry f = lit "NULL as " ++ f
                <-> null_or_absent (field_get f d) = true
                    \/ written_NULL (field_get f d) = true)
  /\ (Loader.assoc section Loader.config_map = Some config_key ->
      section_get config_key (sections cfg) = Some m ->
      Loader.year_fields_of m year = Ok (VDict dl) ->
      dl <> [] ->
      iterate (get_default m (KStr (lit "standard_fields")) (VList [])) = Ok fieldsl ->
      Loader._generate_year_cte cfg year section
      = Ok (Some (lit "  " ++ section ++ lit "_" ++ year ++ lit " AS (" ++ nl
                  ++ lit "  SELECT" ++ nl
                  ++ lit "    "
                  ++ join (lit "," ++ nl ++ lit "    ")
                       ((lit "'" ++ year ++ lit "' AS election_year")
                        :: map entryl (List.filter not_election_year fieldsl))
                  ++ nl
                  ++ lit "  FROM" ++ nl
                  ++ lit "    `eavs_" ++ year ++ lit "." ++ Loader.table_name year section
                  ++ lit "`" ++ nl
                  ++ lit "  )")))
  /\ (forall f, entryl f = lit "NULL AS " ++ f
                <-> null_or_absent (field_get f dl) = true
                    \/ empty_source (field_get f dl) = true
                    \/ written_NULL (field_get f dl) = true).
Proof.
  intros entry entryl. split; [|split; [|split]].
  - intros Hy Hf. unfold Generator.generate_union_select, Generator.selects_of.
    rewrite Hy, Hf. cbn [bind]. rewrite mapped_selects_dict. cbn [bind].
    unfold Generator.select_block, Generator.base_selects. cbn [concat].
    rewrite !app_nil_r. reflexivity.
  - intros f. unfold entry, written_NULL.
    apply (entry_is_null (lit " as ") (source_str (field_get f d)) f).
  - intros Ha Hs Hy Hne Hf. unfold Loader._generate_year_cte.
    rewrite Ha, Hs, Hy. cbn [bind].
    destruct dl as [|b dl']; [contradiction|]. cbn [truthy negb].
    rewrite Hf. cbn [bind]. rewrite selections_of_dict. cbn [bind].
    unfold Loader.cte_text. cbn [concat]. rewrite !app_nil_r. reflexivity.
  - intros f. unfold entryl, written_NULL.
    etransitivity; [apply (entry_is_null (lit " AS ") (source_str (field_get f dl)) f)|].
    rewrite orb_true_iff. tauto.
Qed.

Lemma null_fallback_law_witness :
  Generator.generate_union_select Sample.cfg (lit "2016") (lit "registration_mappings")
    (lit "a_reg")
  = Ok (Generator.select_block Sample.cfg (lit "2016") (lit "a_reg")
          (Generator.base_selects (lit "2016") ++ [lit "col_a as a"; lit "NULL as b"]))
  /\ Loader._generate_year_cte Sample.cfg (lit "2018") (lit "a_reg")
  = Ok (Some (Loader.cte_text (lit "2018") (lit "a_reg")
                [ lit "'2018' AS election_year"; lit "NULL AS fips"; lit "NULL AS state";
                  lit "NULL AS county"; lit "col_a2 AS a"; lit "col_b2 AS b" ])).
Proof.
  pose proof (null_fallback_law Sample.cfg (lit "2016") (lit "registration_mappings")
                (lit "a_reg") (lit "a_reg") (lit "registration_mappings")
                [] [(lit "a", SStr (lit "col_a")); (lit "b", SStr (lit "null"))] []
                [lit "fips"; lit "election_year"; lit "state"; lit "county"; lit "a"; lit "b"]
                []) as [G _].
  pose proof (null_fallback_law Sample.cfg (lit "2018") (lit "registration_mappings")
                (lit "a_reg") (lit "a_reg") (lit "registration_mappings")
                (Generator.mappings_of Sample.cfg (lit "registration_mappings")) []
                [(lit "a", SStr (lit "col_a2")); (lit "b", SStr (lit "col_b2"))] []
                [lit "fips"; lit "election_year"; lit "state"; lit "county"; lit "a"; lit "b"])
    as (_ & _ & L & _).
  split.
  - exact (G eq_refl eq_refl).
  - refine (L eq_refl eq_refl eq_refl _ eq_refl). discriminate.
Defined.

Section ReadingFacts.
Import Generator.





















End ReadingFacts.




(** C6. Partial generation tolerance: [generate_full_union_view] keeps the
    blocks of the years whose generation does not raise, in the order of the
    years, and joins them; it raises exactly when the mapping key has no
    year or every year's block raises; what it returns is never a view
    without a block. *)
Theorem partial_generation_tolerance (cfg : config)
    (mapping_key section_code view_name : str) :
  let years := Generator.get_all_years cfg mapping_key in
  let blocks :=
    flat_map (fun y =>
      match Generator.generate_union_select cfg y mapping_key section_code with
      | Ok b => [b]
      | Raise _ => []
      end) years in
  (blocks <> [] ->
   Generator.generate_full_union_view cfg mapping_key section_code view_name
   = Ok (Generator.view_header cfg view_name
         ++ join (nl ++ nl ++ lit "UNION ALL" ++ nl ++ nl) blocks))
  /\ ((exists e, Generator.generate_full_union_view cfg mapping_key section_code view_name
                 = Raise e)
      <-> years = []
          \/ forall y, In y years ->
               exists e, Generator.generate_union_select cfg y mapping_key section_code
                         = Raise e)
  /\ (forall sql,
        Generator.generate_full_union_view cfg mapping_key section_code view_name = Ok sql ->
        blocks <> []).
Proof.
  intros years blocks.
  pose proof (union_blocks_of_flat_map cfg mapping_key section_code years) as Hb.
  fold blocks in Hb.
  pose proof (union_blocks_of_nil cfg mapping_key section_code years) as Hn.
  rewrite Hb in Hn.
  unfold Generator.generate_full_union_view. fold years. rewrite Hb.
  split; [|split].
  - intros Hne. destruct years as [|y ys]; [now elim Hne|].
    destruct blocks; [now elim Hne|reflexivity].
  - destruct years as [|y ys].
    + split; eauto.
    + destruct blocks as [|b bs].
      * split; [intros _; right; now apply Hn | eauto].
      * split; [intros [e He]; discriminate|].
        intros [Hy | Hall]; [discriminate|]. apply Hn in Hall. discriminate.
  - intros sql. destruct years as [|y ys]; [discriminate|].
    destruct blocks; [discriminate|]. intros _. discriminate.
Qed.

Lemma partial_generation_tolerance_witness :
  Generator.get_all_years Sample.cfg (lit "registration_mappings")
  = [lit "2016"; lit "2018"; lit "2024"; lit "notes"]
  /\ Generator.generate_union_select Sample.cfg (lit "notes")
       (lit "registration_mappings") (lit "a_reg") = Raise ValueError
  /\ exists b16 b18 b24,
       Generator.generate_full_union_view Sample.cfg (lit "registration_mappings")
         (lit "a_reg") (lit "eavs_county_reg_union")
       = Ok (Generator.view_header Sample.cfg (lit "eavs_county_reg_union")
             ++ join (nl ++ nl ++ lit "UNION ALL" ++ nl ++ nl) [b16; b18; b24]).
Proof.
  split; [reflexivity|]. split; [reflexivity|].
  do 3 eexists.
  refine (proj1 (partial_generation_tolerance Sample.cfg (lit "registration_mappings")
                   (lit "a_reg") (lit "eavs_county_reg_union")) _).
  vm_compute. discriminate.
Defined.

(** ** Where the scripts part from the specification *)

(** C1. Patch failure is non-destructive: the specification asks that a
    patch whose insertion points are not found returns the text unchanged or
    reports failure, never a union arm without its CTE.  On [Sample.view_sql]
    neither pattern for the place of the new CTE matches (the view writes
    [as] where the patterns want [AS], and [AS] where they want [as]), the
    pattern for the union arm does match, and [update_union_views] sends a
    query with the arm [SELECT * FROM a_reg_2024] and no CTE of that name. *)
Theorem union_arm_without_cte :
  let year := lit "2024" in
  let section := lit "a_reg" in
  let updated_sql :=
    concat [ lit "WITH a_reg_2022 as ("; nl;
             lit "  SELECT * FROM `eavs_2022.eavs_county_22_a_reg`"; nl;
             lit "), union_all AS ("; nl;
             lit "  SELECT * FROM a_reg_2022"; nl;
             lit ")"; nl;
             lit "UNION ALL"; nl;
             lit "SELECT * FROM a_reg_2024"; nl;
             lit "SELECT * FROM union_all" ] in
  Re.findall (Loader.pattern section) Sample.view_sql = []
  /\ Re.search Loader.union_pattern Sample.view_sql = None
  /\ (exists new_cte, Loader._generate_year_cte Sample.cfg year section = Ok (Some new_cte)
        /\ Loader.insert_cte Sample.view_sql new_cte section = Sample.view_sql)
  /\ Loader.update_union_view Sample.cfg year section Sample.view_sql = Updated updated_sql
  /\ contains (Loader.union_addition year section) updated_sql = true
  /\ contains (lit "a_reg_2024 AS (") updated_sql = false
  /\ updated_sql <> Sample.view_sql.
Proof.
  cbv zeta. split; [reflexivity|]. split; [reflexivity|].
  split; [eexists; split; reflexivity|].
  split; [vm_compute; reflexivity|]. split; [reflexivity|]. split; [reflexivity|].
  vm_compute. discriminate.
Qed.

(** C7. Source table naming: the specification names the table of a year
    block [eavs_county_<yy>_<section key>], the name under which the loader
    creates it.  [get_table_name] upper-cases the key: for 2024 and [a_reg]
    the block reads from [eavs_county_24_A_REG] while
    [create_external_tables] created [eavs_county_24_a_reg]. *)
Theorem table_name_case_differs :
  Generator.get_table_name (lit "2024") (lit "a_reg") = lit "eavs_county_24_A_REG"
  /\ Generator.from_clause Sample.cfg (lit "2024") (lit "a_reg")
     = lit "`eavs-392800.eavs_2024.eavs_county_24_A_REG`"
  /\ Loader.table_name (lit "2024") (lit "a_reg") = lit "eavs_county_24_a_reg"
  /\ Generator.get_table_name (lit "2024") (lit "a_reg")
     <> Loader.table_name (lit "2024") (lit "a_reg").
Proof. repeat split; try reflexivity. vm_compute. discriminate. Qed.

(** What [get_table_name] builds in general, and when it meets the loader's
    name. *)
Lemma get_table_name_upper year section_code :
  Generator.get_table_name year section_code
  = lit "eavs_county_" ++ last2 year ++ lit "_" ++ upper section_code.
Proof. unfold Generator.get_table_name. simpl. now rewrite app_nil_r. Qed.

Lemma get_table_name_agrees year section_code :
  upper section_code = section_code ->
  Generator.get_table_name year section_code = Loader.table_name year section_code.
Proof.
  intros H. unfold Generator.get_table_name, Loader.table_name, Loader.year_short.
  now rewrite H.
Qed.


Lemma passed_iff_no_error_witness :
  Validation.passed
    (Validation.run [Validation.AddInfo (lit "rows"); Validation.AddWarning (lit "range")]
       (Validation.init (lit "Row Count"))) = true.
Proof.
  refine (proj2 (proj1 (passed_iff_no_error (lit "Row Count")
            [Validation.AddInfo (lit "rows"); Validation.AddWarning (lit "range")])) _).
  intros m [H | [H | []]]; discriminate.
Defined.

(** ** The matcher against what a pattern matches *)

Section MatcherFacts.

Lemma m_sound r : forall A s g k x,
  Re.m A r s g k = Some x ->
  exists t s' g', s = t ++ s' /\ lang r t /\ k s' g' = Some x.
Proof.
  induction r as [|p|r1 IH1 r2 IH2|r1 IH1 r2 IH2|r1 IH1|r1 IH1|r1 IH1];
    intros A s g k x H; cbn [Re.m] in H.
  - exists [], s, g. repeat split; assumption.
  - destruct s as [|c s']; [discriminate|]. destruct (p c) eqn:Hp; [|discriminate].
    exists [c], s', g. repeat split; [|assumption]. exists c. auto.
  - apply IH1 in H. destruct H as (t1 & s1 & g1 & -> & L1 & H).
    apply IH2 in H. destruct H as (t2 & s2 & g2 & -> & L2 & H).
    exists (t1 ++ t2), s2, g2. rewrite <- app_assoc. repeat split; [|assumption].
    exists t1, t2. auto.
  - destruct (Re.m A r1 s g k) as [y|] eqn:E.
    + injection H as <-. apply IH1 in E. destruct E as (t & s' & g' & -> & L & H).
      exists t, s', g'. repeat split; [|assumption]. now left.
    + apply IH2 in H. destruct H as (t & s' & g' & -> & L & H).
      exists t, s', g'. repeat split; [|assumption]. now right.
  - remember (length s) as n eqn:Hn. clear Hn. revert s g H.
    induction n as [|n IHn]; intros s g H.
    + exists [], s, g. repeat split; [|assumption]. exists []. split; [reflexivity|constructor].
    + match type of H with
      | match ?e with _ => _ end = _ => destruct e as [y|] eqn:E
      end.
      * injection H as <-. apply IH1 in E. destruct E as (t1 & s1 & g1 & -> & L1 & H).
        destruct (length s1 <? length (t1 ++ s1)); [|discriminate].
        apply IHn in H. destruct H as (t2 & s2 & g2 & -> & (ts & -> & Hts) & H).
        exists (t1 ++ concat ts), s2, g2. rewrite <- app_assoc. repeat split; [|assumption].
        exists (t1 :: ts). split; [reflexivity|]. now constructor.
      * exists [], s, g. repeat split; [|assumption].
        exists []. split; [reflexivity|constructor].
  - destruct (Re.m unit r1 s g _); [discriminate|].
    exists [], s, g. repeat split; assumption.
  - apply IH1 in H. destruct H as (t & s' & g' & -> & L & H).
    exists t, s', (Some (take (length (t ++ s') - length s') (t ++ s'))).
    repeat split; assumption.
Qed.

Lemma match_at_sound r pos s f :
  Re.match_at r pos s = Some f ->
  exists t post, s = t ++ post /\ lang r t
                 /\ Re.start f = pos /\ Re.stop f = pos + length t.
Proof.
  unfold Re.match_at. intros H. apply m_sound in H.
  destruct H as (t & s' & g' & -> & L & H). injection H as <-.
  exists t, s'. cbn. rewrite length_app. repeat split; auto. lia.
Qed.

Lemma search_from_sound r : forall s pos f,
  Re.search_from r pos s = Some f ->
  exists pre t post, s = pre ++ t ++ post /\ lang r t
                     /\ Re.start f = pos + length pre
                     /\ Re.stop f = pos + length pre + length t.
Proof.
  induction s as [|c s IH]; intros pos f H; cbn [Re.search_from] in H.
  - destruct (Re.match_at r pos []) eqn:E; [|discriminate]. injection H as ->.
    apply match_at_sound in E. destruct E as (t & post & E & L & Hs & He).
    exists [], t, post. cbn. rewrite Hs, He. repeat split; auto; lia.
  - destruct (Re.match_at r pos (c :: s)) eqn:E.
    + injection H as ->. apply match_at_sound in E.
      destruct E as (t & post & E & L & Hs & He).
      exists [], t, post. cbn. rewrite Hs, He. repeat split; auto; lia.
    + apply IH in H. destruct H as (pre & t & post & -> & L & Hs & He).
      exists (c :: pre), t, post. cbn. rewrite Hs, He. repeat split; auto; lia.
Qed.

Lemma search_sound r s f :
  Re.search r s = Some f ->
  exists pre t post, s = pre ++ t ++ post /\ lang r t
                     /\ Re.start f = length pre /\ Re.stop f = length (pre ++ t).
Proof.
  intros H. apply search_from_sound in H.
  destruct H as (pre & t & post & -> & L & Hs & He).
  exists pre, t, post. rewrite length_app. repeat split; auto.
Qed.

Lemma finditer_from_sound r : forall s pos skip f,
  In f (Re.finditer_from r pos skip s) ->
  exists pre t post, s = pre ++ t ++ post /\ lang r t
                     /\ Re.stop f = pos + length pre + length t.
Proof.
  induction s as [|c s IH]; intros pos skip f H; cbn [Re.finditer_from] in H.
  - destruct skip; [|destruct H].
    destruct (Re.match_at r pos []) eqn:E; [|destruct H].
    destruct H as [<- | []]. apply match_at_sound in E.
    destruct E as (t & post & E & L & Hs & He).
    exists [], t, post. cbn. rewrite He. repeat split; auto.
  - assert (Hrec : forall pos' skip', In f (Re.finditer_from r (S pos') skip' s) ->
      exists pre t post, c :: s = pre ++ t ++ post /\ lang r t
                         /\ Re.stop f = pos' + length pre + length t).
    { intros pos' skip' Hin. apply IH in Hin.
      destruct Hin as (pre & t & post & -> & L & He).
      exists (c :: pre), t, post. cbn. rewrite He. repeat split; auto; lia. }
    destruct skip as [|skip]; [|eapply Hrec, H].
    destruct (Re.match_at r pos (c :: s)) eqn:E; [|eapply Hrec, H].
    destruct H as [<- | H]; [|eapply Hrec, H].
    apply match_at_sound in E. destruct E as (t & post & E & L & Hs & He).
    exists [], t, post. cbn. rewrite He. repeat split; auto.
Qed.

Lemma lang_Lit w t : lang (Re.Lit w) t -> t = w.
Proof.
  revert t. unfold Re.Lit. induction w as [|c w IH]; intros t; cbn.
  - auto.
  - intros (t1 & t2 & -> & (x & -> & Hx) & L). apply ascii_eqb_eq in Hx. subst x.
    cbn. f_equal. now apply IH.
Qed.

Lemma lang_Star_Chr p t : lang (Re.Star (Re.Chr p)) t -> Forall (fun c => p c = true) t.
Proof.
  intros (ts & -> & Hts). induction Hts as [|t ts (c & -> & Hc) _ IH]; cbn.
  - constructor.
  - now constructor.
Qed.

Lemma lang_Plus_Chr p t :
  lang (Re.Plus (Re.Chr p)) t -> t <> [] /\ Forall (fun c => p c = true) t.
Proof.
  intros (t1 & t2 & -> & (c & -> & Hc) & L). apply lang_Star_Chr in L.
  split; [discriminate|]. now constructor.
Qed.

Lemma lang_Rep_Chr p n t :
  lang (Re.Rep n (Re.Chr p)) t -> length t = n /\ Forall (fun c => p c = true) t.
Proof.
  revert t. induction n as [|n IH]; intros t; cbn.
  - intros ->. split; [reflexivity|constructor].
  - intros (t1 & t2 & -> & (c & -> & Hc) & L). apply IH in L. destruct L as [Hl Hf].
    cbn. split; [now rewrite Hl|now constructor].
Qed.

End MatcherFacts.

(** ** Where the loader puts the new text *)

Section PlacementFacts.
Import Loader.

Lemma splice_app a b x : splice (a ++ b) (length a) x = a ++ x ++ b.
Proof.
  unfold splice. rewrite take_app_length, drop_app_length. reflexivity.
Qed.

Lemma insert_sorted_In x y l : In y (insert_sorted x l) <-> y = x \/ In y l.
Proof.
  induction l as [|z l IH]; cbn.
  - intuition congruence.
  - destruct (str_leb x z); cbn; [intuition congruence|]. rewrite IH. intuition congruence.
Qed.

Lemma sorted_In y l : In y (sorted l) <-> In y l.
Proof.
  induction l as [|x l IH]; cbn; [reflexivity|].
  rewrite insert_sorted_In, IH. intuition congruence.
Qed.

Lemma last_In {A} (l : list A) d : l <> [] -> In (List.last l d) l.
Proof.
  induction l as [|x [|y l] IH]; intros H; [contradiction|now left|].
  right. apply IH. discriminate.
Qed.

Lemma sorted_nil_inv l : sorted l = [] -> l = [].
Proof.
  destruct l as [|x l]; [reflexivity|]. intros H.
  assert (Hin : In x (sorted (x :: l))) by (apply sorted_In; now left).
  rewrite H in Hin. destruct Hin.
Qed.

Lemma lang_insert_pattern section last_year t :
  lang (insert_pattern section last_year) t ->
  exists body, t = section ++ lit "_" ++ last_year ++ lit " AS (" ++ body ++ lit ")"
               /\ body <> [] /\ Forall (fun c => c <> ")"%char) body.
Proof.
  unfold insert_pattern. cbn [lang Re.seq].
  intros (t1 & r1 & -> & L1 & t2 & r2 & -> & L2 & t3 & r3 & -> & L3 & t4 & r4 & -> & L4
          & t5 & r5 & -> & L5 & t6 & r6 & -> & L6 & ->).
  apply lang_Lit in L1, L2, L3, L4, L6. subst.
  unfold Re.not_char in L5. apply lang_Plus_Chr in L5. destruct L5 as [Hne Hall].
  exists t5. rewrite app_nil_r. repeat split; auto.
  eapply Forall_impl; [exact Hall|]. cbn. intros c Hc ->. discriminate.
Qed.

Lemma lang_union_pattern t :
  lang union_pattern t ->
  exists sp, t = lit "," ++ sp ++ lit "union_all as ("
             /\ Forall (fun c => is_space c = true) sp.
Proof.
  unfold union_pattern. cbn [lang Re.seq].
  intros (t1 & r1 & -> & L1 & t2 & r2 & -> & L2 & t3 & r3 & -> & L3 & ->).
  apply lang_Lit in L1, L3. subst. unfold Re.space in L2. apply lang_Star_Chr in L2.
  exists t2. rewrite app_nil_r. auto.
Qed.

Lemma lang_last_select_pattern t :
  lang last_select_pattern t ->
  exists sp name digits sp2,
    t = lit "FROM" ++ sp ++ name ++ lit "_" ++ digits ++ sp2 ++ lit ")"
    /\ sp <> [] /\ Forall (fun c => is_space c = true) sp
    /\ name <> [] /\ Forall (fun c => is_word c = true) name
    /\ length digits = 4 /\ Forall (fun c => is_digit c = true) digits
    /\ Forall (fun c => is_space c = true) sp2.
Proof.
  unfold last_select_pattern. cbn [lang Re.seq].
  intros (g & r0 & -> & (t1 & r1 & -> & L1 & t2 & r2 & -> & L2 & t3 & r3 & -> & L3
                         & t4 & r4 & -> & L4 & t5 & r5 & -> & L5 & ->)
          & t6 & r6 & -> & L6 & t7 & r7 & -> & L7 & ->).
  apply lang_Lit in L1, L4, L7. subst.
  unfold Re.space, Re.word, Re.digit in *.
  apply lang_Plus_Chr in L2, L3. apply lang_Rep_Chr in L5. apply lang_Star_Chr in L6.
  destruct L2, L3, L5.
  exists t2, t3, t5, t6. rewrite !app_nil_r, <- !app_assoc. repeat split; auto.
Qed.

(** X1. The new CTE goes in at one of two places.  When the section has year
    CTEs: straight after the first closing parenthesis that follows the
    header [<section>_<year> AS (] of one of the years found, whatever that
    parenthesis closes.  When it has none: straight before the comma that
    introduces [union_all as (].  Otherwise the text is left as it is. *)
Theorem new_cte_placement (existing_sql new_cte section : str) :
  Loader.insert_cte existing_sql new_cte section = existing_sql
  \/ (exists last_year before body after,
        In last_year (Re.findall (Loader.pattern section) existing_sql)
        /\ existing_sql
           = before ++ (section ++ lit "_" ++ last_year ++ lit " AS (" ++ body ++ lit ")")
             ++ after
        /\ body <> [] /\ Forall (fun c => c <> ")"%char) body
        /\ Loader.insert_cte existing_sql new_cte section
           = before ++ (section ++ lit "_" ++ last_year ++ lit " AS (" ++ body ++ lit ")")
             ++ (lit "," ++ nl ++ new_cte) ++ after)
  \/ (Re.findall (Loader.pattern section) existing_sql = []
      /\ exists before sp after,
        existing_sql = before ++ (lit "," ++ sp ++ lit "union_all as (") ++ after
        /\ Forall (fun c => is_space c = true) sp
        /\ Loader.insert_cte existing_sql new_cte section
           = before ++ (lit "," ++ nl ++ new_cte)
             ++ (lit "," ++ sp ++ lit "union_all as (") ++ after).
Proof.
  unfold insert_cte.
  destruct (Re.findall (pattern section) existing_sql) as [|y ys] eqn:Ey.
  - destruct (Re.search union_pattern existing_sql) as [f|] eqn:Ef; [|now left].
    right. right. split; [reflexivity|].
    apply search_sound in Ef. destruct Ef as (pre & t & post & -> & L & Hs & He).
    apply lang_union_pattern in L. destruct L as (sp & -> & Hsp).
    exists pre, sp, post. rewrite Hs, splice_app. auto.
  - set (last_year := List.last (sorted (y :: ys)) []).
    destruct (Re.search (insert_pattern section last_year) existing_sql) as [f|] eqn:Ef;
      [|now left].
    right. left.
    apply search_sound in Ef. destruct Ef as (pre & t & post & -> & L & Hs & He).
    apply lang_insert_pattern in L. destruct L as (body & -> & Hne & Hall).
    exists last_year, pre, body, post. rewrite <- Ey in *.
    split.
    { rewrite Ey. apply sorted_In. apply last_In. intros H. apply sorted_nil_inv in H.
      discriminate. }
    rewrite He, app_assoc, splice_app, <- !app_assoc. auto.
Qed.

(** X2. The new union arm goes in straight after the closing parenthesis of a
    text [FROM <name>_<four digits> )], that is, outside that parenthesis;
    with no such text nothing is added. *)
Theorem union_arm_placement (year sql section : str) :
  (Re.finditer Loader.last_select_pattern sql = []
   /\ Loader.add_union_arm year sql section = sql)
  \/ exists before sp name digits sp2 after,
       sql = before ++ (lit "FROM" ++ sp ++ name ++ lit "_" ++ digits ++ sp2 ++ lit ")")
             ++ after
       /\ sp <> [] /\ Forall (fun c => is_space c = true) sp
       /\ name <> [] /\ Forall (fun c => is_word c = true) name
       /\ length digits = 4 /\ Forall (fun c => is_digit c = true) digits
       /\ Forall (fun c => is_space c = true) sp2
       /\ Loader.add_union_arm year sql section
          = before ++ (lit "FROM" ++ sp ++ name ++ lit "_" ++ digits ++ sp2 ++ lit ")")
            ++ Loader.union_addition year section ++ after.
Proof.
  unfold add_union_arm.
  destruct (rev (Re.finditer last_select_pattern sql)) as [|f fs] eqn:E.
  - left. split; [|reflexivity].
    apply (f_equal (@rev _)) in E. now rewrite rev_involutive in E.
  - right.
    assert (Hin : In f (Re.finditer last_select_pattern sql)).
    { apply in_rev. rewrite E. now left. }
    apply finditer_from_sound in Hin. destruct Hin as (pre & t & post & -> & L & He).
    apply lang_last_select_pattern in L.
    destruct L as (sp & name & digits & sp2 & -> & H1 & H2 & H3 & H4 & H5 & H6 & H7).
    exists pre, sp, name, digits, sp2, post.
    cbn [plus] in He. rewrite <- length_app in He.
    rewrite He, app_assoc, splice_app, <- !app_assoc. repeat split; auto.
Qed.

End PlacementFacts.

(** ** The order of the years *)

Section OrderFacts.
Import Generator.

Lemma str_leb_total a b : str_leb a b = true \/ str_leb b a = true.
Proof.
  revert b. induction a as [|x a IH]; intros [|y b]; cbn; auto.
  destruct (N.ltb_spec (code x) (code y)), (N.ltb_spec (code y) (code x)); auto; lia.
Qed.

Lemma str_leb_trans a b c :
  str_leb a b = true -> str_leb b c = true -> str_leb a c = true.
Proof.
  revert b c. induction a as [|x a IH]; intros [|y b] [|z c]; cbn; auto; try discriminate.
  destruct (N.ltb_spec (code x) (code y)), (N.ltb_spec (code y) (code x)),
    (N.ltb_spec (code y) (code z)), (N.ltb_spec (code z) (code y)),
    (N.ltb_spec (code x) (code z)), (N.ltb_spec (code z) (code x));
    auto; try discriminate; try lia.
  apply IH.
Qed.

Lemma insert_sorted_perm x l : Permutation (insert_sorted x l) (x :: l).
Proof.
  induction l as [|y l IH]; cbn; [reflexivity|].
  destruct (str_leb x y); [reflexivity|].
  rewrite IH. apply perm_swap.
Qed.

Lemma sorted_perm l : Permutation (sorted l) l.
Proof.
  induction l as [|x l IH]; cbn; [reflexivity|].
  rewrite insert_sorted_perm. now constructor.
Qed.

Lemma insert_sorted_Sorted x l : Sorted leb_rel l -> Sorted leb_rel (insert_sorted x l).
Proof.
  induction 1 as [|y l Hs IH Hd]; cbn; [repeat constructor|].
  destruct (str_leb x y) eqn:E.
  - constructor; [now constructor|]. now constructor.
  - constructor; [exact IH|].
    assert (Hyx : leb_rel y x) by (destruct (str_leb_total x y); [congruence|assumption]).
    destruct Hd as [|z l Hyz]; cbn; [now constructor|].
    destruct (str_leb x z); now constructor.
Qed.

Lemma sorted_Sorted l : Sorted leb_rel (sorted l).
Proof.
  induction l as [|x l IH]; cbn; [constructor|]. now apply insert_sorted_Sorted.
Qed.

Lemma four_digit_leb y1 y2 :
  four_digit y1 = true -> four_digit y2 = true ->
  str_leb y1 y2 = (year_number y1 <=? year_number y2)%Z.
Proof.
  destruct y1 as [|a1 [|b1 [|c1 [|d1 [|]]]]]; try discriminate.
  destruct y2 as [|a2 [|b2 [|c2 [|d2 [|]]]]]; try discriminate.
  cbn [four_digit]. rewrite !andb_true_iff.
  intros [[[Ha1 Hb1] Hc1] Hd1] [[[Ha2 Hb2] Hc2] Hd2].
  apply digit_range in Ha1, Hb1, Hc1, Hd1, Ha2, Hb2, Hc2, Hd2.
  unfold year_number. cbn [fold_left str_leb].
  destruct (Z.leb_spec
    (10 * (10 * (10 * (10 * 0 + (Z.of_N (code a1) - 48)) + (Z.of_N (code b1) - 48))
           + (Z.of_N (code c1) - 48)) + (Z.of_N (code d1) - 48))
    (10 * (10 * (10 * (10 * 0 + (Z.of_N (code a2) - 48)) + (Z.of_N (code b2) - 48))
           + (Z.of_N (code c2) - 48)) + (Z.of_N (code d2) - 48)))%Z as [Hle | Hgt];
  destruct (N.ltb_spec (code a1) (code a2)); try reflexivity; try lia;
  destruct (N.ltb_spec (code a2) (code a1)); try reflexivity; try lia;
  destruct (N.ltb_spec (code b1) (code b2)); try reflexivity; try lia;
  destruct (N.ltb_spec (code b2) (code b1)); try reflexivity; try lia;
  destruct (N.ltb_spec (code c1) (code c2)); try reflexivity; try lia;
  destruct (N.ltb_spec (code c2) (code c1)); try reflexivity; try lia;
  destruct (N.ltb_spec (code d1) (code d2)); try reflexivity; try lia;
  destruct (N.ltb_spec (code d2) (code d1)); try reflexivity; try lia.
Qed.

Lemma Sorted_Forall_impl {A} (R R' : A -> A -> Prop) (P : A -> Prop) l :
  (forall a b, P a -> P b -> R a b -> R' a b) ->
  Forall P l -> Sorted R l -> Sorted R' l.
Proof.
  intros Himp Hall Hs. induction Hs as [|x l Hs IH Hd]; [constructor|].
  inversion Hall as [|? ? Hx Hl]; subst. constructor; [now apply IH|].
  destruct Hd as [|y l Hxy]; constructor. inversion Hl; subst. now apply Himp.
Qed.

(** The keys of a mapping that [get_all_years] takes for years. *)
Lemma get_all_years_def cfg mapping_key :
  get_all_years cfg mapping_key
  = sorted (map str_of_key
              (List.filter (fun k => negb (is_standard_fields k))
                 (map fst (mappings_of cfg mapping_key)))).
Proof. reflexivity. Qed.

End OrderFacts.

(** X3. [get_all_years] returns, in ascending order of strings, exactly the keys
    of the mapping other than [standard_fields], each written as a string
    and as often as it occurs. *)
Theorem get_all_years_sorted_permutation (cfg : config) (mapping_key : str) :
  Sorted (fun a b => str_leb a b = true) (Generator.get_all_years cfg mapping_key)
  /\ Permutation (Generator.get_all_years cfg mapping_key)
       (map Generator.str_of_key
          (List.filter (fun k => negb (key_eqb k (KStr (lit "standard_fields"))))
             (map fst (Generator.mappings_of cfg mapping_key)))).
Proof.
  split; [apply sorted_Sorted | apply sorted_perm].
Qed.

(** X4. When every year listed has four digits, the list is in chronological
    order: the order of the strings is the order of the numbers. *)
Theorem get_all_years_chronological (cfg : config) (mapping_key : str)
    (Hdigits : Forall (fun y => four_digit y = true)
                 (Generator.get_all_years cfg mapping_key)) :
  Sorted (fun a b => (year_number a <= year_number b)%Z)
    (Generator.get_all_years cfg mapping_key).
Proof.
  eapply Sorted_Forall_impl; [|exact Hdigits|apply sorted_Sorted].
  intros a b Ha Hb Hab. unfold leb_rel in Hab. rewrite (four_digit_leb _ _ Ha Hb) in Hab.
  now apply Z.leb_le.
Qed.

Lemma get_all_years_chronological_witness :
  Generator.get_all_years Example.cfg (lit "registration_mappings")
  = [lit "2016"; lit "2018"; lit "2024"]
  /\ Sorted (fun a b => (year_number a <= year_number b)%Z)
       (Generator.get_all_years Example.cfg (lit "registration_mappings")).
Proof.
  split; [reflexivity|].
  apply (get_all_years_chronological Example.cfg (lit "registration_mappings")).
  repeat constructor.
Defined.

(** ** Keys and years that are not there *)

Section MissingFacts.
Import Generator.

Lemma sorted_map_nil (l : list key) :
  List.filter (fun k => negb (is_standard_fields k)) l = [] ->
  sorted (map str_of_key (List.filter (fun k => negb (is_standard_fields k)) l)) = [].
Proof. now intros ->. Qed.

Lemma filter_nil_iff {A} (p : A -> bool) l :
  List.filter p l = [] <-> forall x, In x l -> p x = false.
Proof.
  induction l as [|x l IH]; cbn; [split; [intros _ ? []|reflexivity]|].
  destruct (p x) eqn:E.
  - split; [discriminate|]. intros H. specialize (H x (or_introl eq_refl)). congruence.
  - rewrite IH. split; [intros H y [<-|Hy]; auto|intros H y Hy; apply H; now right].
Qed.

End MissingFacts.

(** X5. A mapping key that the configuration does not have, or whose mapping
    has no key other than [standard_fields], gives no years, and
    [generate_full_union_view] raises [ValueError] instead of writing a
    view. *)
Theorem no_years_raises (cfg : config) (mapping_key section_code view_name : str)
    (Hkeys : forall k, In k (map fst (Generator.mappings_of cfg mapping_key)) ->
                       k = KStr (lit "standard_fields")) :
  Generator.get_all_years cfg mapping_key = []
  /\ Generator.generate_full_union_view cfg mapping_key section_code view_name
     = Raise ValueError.
Proof.
  assert (H : Generator.get_all_years cfg mapping_key = []).
  { rewrite get_all_years_def. apply sorted_map_nil. apply filter_nil_iff.
    intros k Hk. rewrite (Hkeys k Hk). reflexivity. }
  split; [exact H|]. unfold Generator.generate_full_union_view. now rewrite H.
Qed.

Lemma no_years_raises_witness :
  Generator.generate_full_union_view Example.cfg (lit "mail_mappings") (lit "c_mail")
    (lit "eavs_county_mail_union") = Raise ValueError.
Proof.
  refine (proj2 (no_years_raises Example.cfg (lit "mail_mappings") (lit "c_mail")
                   (lit "eavs_county_mail_union") _)).
  intros k [].
Defined.

(** X6. For a year of four digits that the mapping has under neither form of
    the key, [generate_union_select] does not raise: it writes a block in
    which every standard field that is not a base field is [NULL]. *)
Theorem unmapped_year_all_null (cfg : config) (year mapping_key section_code : str)
    (fields : list str)
    (Hyear : four_digit year = true)
    (Hint : dict_get (KInt (year_number year)) (Generator.mappings_of cfg mapping_key) = None)
    (Hstr : dict_get (KStr year) (Generator.mappings_of cfg mapping_key) = None)
    (Hfields : iterate (Generator.get_standard_fields cfg mapping_key) = Ok fields) :
  Generator.generate_union_select cfg year mapping_key section_code
  = Ok (Generator.select_block cfg year section_code
          (Generator.base_selects year
           ++ map (fun f => lit "NULL as " ++ f) (List.filter non_base fields))).
Proof.
  unfold Generator.generate_union_select, Generator.selects_of, Generator.year_mappings_of.
  rewrite (py_int_four_digit _ Hyear). cbn [bind]. unfold get_default.
  rewrite Hint, Hstr, Hfields. cbn [bind]. rewrite mapped_selects_dict. reflexivity.
Qed.

Lemma unmapped_year_all_null_witness :
  Generator.generate_union_select Example.cfg (lit "2020") (lit "registration_mappings")
    (lit "a_reg")
  = Ok (Generator.select_block Example.cfg (lit "2020") (lit "a_reg")
          (Generator.base_selects (lit "2020") ++ [lit "NULL as a"; lit "NULL as b"])).
Proof.
  exact (unmapped_year_all_null Example.cfg (lit "2020") (lit "registration_mappings")
           (lit "a_reg") [lit "fips"; lit "a"; lit "b"] eq_refl eq_refl eq_refl eq_refl).
Defined.

(** X7. The loader, for its part, builds no CTE and leaves the view alone when
    the section is not one of the four it knows, when the configuration
    lacks the section's mapping, or when the mapping has the year (of four
    digits) under neither form of the key. *)
Theorem loader_skips_without_mapping (cfg : config) (year section existing_sql : str)
    (Hmissing :
       Loader.assoc section Loader.config_map = None
       \/ (exists config_key,
             Loader.assoc section Loader.config_map = Some config_key
             /\ section_get config_key (sections cfg) = None)
       \/ (exists config_key m,
             Loader.assoc section Loader.config_map = Some config_key
             /\ section_get config_key (sections cfg) = Some m
             /\ four_digit year = true
             /\ dict_get (KStr year) m = None
             /\ dict_get (KInt (year_number year)) m = None)) :
  Loader._generate_year_cte cfg year section = Ok None
  /\ view_after existing_sql (Loader.update_union_view cfg year section existing_sql)
     = existing_sql.
Proof.
  assert (H : Loader._generate_year_cte cfg year section = Ok None).
  { unfold Loader._generate_year_cte.
    destruct Hmissing as [-> | [(ck & -> & ->) | (ck & m & -> & -> & Hy & Hs & Hi)]];
      try reflexivity.
    unfold Loader.year_fields_of. rewrite (py_int_four_digit _ Hy). cbn [bind].
    unfold get_default. rewrite Hs, Hi. reflexivity. }
  split; [exact H|]. unfold Loader.update_union_view. rewrite H.
  now destruct (contains _ existing_sql).
Qed.

Lemma loader_skips_without_mapping_witness :
  Loader._generate_year_cte Example.cfg (lit "2024") (lit "d_polls") = Ok None
  /\ Loader._generate_year_cte Example.cfg (lit "2020") (lit "a_reg") = Ok None.
Proof.
  split.
  - refine (proj1 (loader_skips_without_mapping Example.cfg (lit "2024") (lit "d_polls") []
                     _)).
    left. reflexivity.
  - refine (proj1 (loader_skips_without_mapping Example.cfg (lit "2020") (lit "a_reg") []
                     _)).
    right. right. eexists _, _. repeat split; reflexivity.
Defined.

(** ** The loop over the views *)

Section LoopFacts.
Import LoaderRun.

Lemma get_set_eq id q q' w :
  get_view id w = Some q -> get_view id (set_view id q' w) = Some q'.
Proof.
  induction w as [|[k v] w IH]; cbn; [discriminate|].
  destruct (str_eqb id k) eqn:E; cbn; rewrite E; auto.
Qed.

Lemma get_set_ne id id' q w :
  id <> id' -> get_view id' (set_view id q w) = get_view id' w.
Proof.
  intros Hne. induction w as [|[k v] w IH]; cbn; [reflexivity|].
  destruct (str_eqb id k) eqn:E; cbn.
  - apply str_eqb_eq in E. subst k.
    destruct (str_eqb id' id) eqn:E'; [|reflexivity].
    apply str_eqb_eq in E'. congruence.
  - now rewrite IH.
Qed.

Lemma section_of_view_None id views :
  ~ In id (map (fun sv => view_id_of (snd sv)) views) -> section_of_view id views = None.
Proof.
  induction views as [|[s v] views IH]; cbn; [reflexivity|].
  intros H. destruct (str_eqb id (view_id_of v)) eqn:E.
  - apply str_eqb_eq in E. elim H. now left.
  - apply IH. intros Hin. apply H. now right.
Qed.

Lemma update_views_get cfg year gcs views :
  List.NoDup (map (fun sv => view_id_of (snd sv)) views) ->
  forall w id,
    get_view id (update_views cfg year gcs views w)
    = match section_of_view id views, get_view id w with
      | Some section, Some q =>
        if uploaded section gcs then Some (patch_of cfg year section q) else Some q
      | _, o => o
      end.
Proof.
  induction views as [|[s v] views IH]; intros Hnd w id.
  - cbn. now destruct (get_view id w).
  - inversion Hnd as [|? ? Hnotin Hnd']; subst. specialize (IH Hnd').
    cbn [update_views section_of_view].
    destruct (str_eqb id (view_id_of v)) eqn:E.
    + apply str_eqb_eq in E. subst id.
      pose proof (section_of_view_None _ _ Hnotin) as Hnone.
      destruct (uploaded s gcs) eqn:Hu; cbn [negb].
      * destruct (get_view (view_id_of v) w) as [q|] eqn:Hq.
        -- unfold patch_of.
           destruct (Loader.update_union_view cfg year s q) eqn:Ho; cbn [view_after];
             rewrite IH, Hnone; try (now rewrite Hq).
           now rewrite (get_set_eq _ _ _ _ Hq).
        -- rewrite IH, Hnone. now rewrite Hq.
      * rewrite IH, Hnone. now destruct (get_view (view_id_of v) w).
    + assert (Hne : view_id_of v <> id).
      { intros <-. rewrite (proj2 (str_eqb_eq _ _) eq_refl) in E. discriminate. }
      destruct (negb (uploaded s gcs)); [apply IH|].
      destruct (get_view (view_id_of v) w) as [q|]; [|apply IH].
      destruct (Loader.update_union_view cfg year s q); try apply IH.
      rewrite IH. now rewrite (get_set_ne _ _ _ _ Hne).
Qed.

Lemma view_mapping_NoDup : List.NoDup (map (fun sv => view_id_of (snd sv)) view_mapping).
Proof.
  vm_compute. repeat constructor; cbn; intuition discriminate.
Qed.

Lemma update_union_views_get cfg year gcs w id :
  get_view id (update_union_views cfg year gcs w)
  = match section_of_view id view_mapping, get_view id w with
    | Some section, Some q =>
      if uploaded section gcs then Some (patch_of cfg year section q) else Some q
    | _, o => o
    end.
Proof. apply update_views_get, view_mapping_NoDup. Qed.

Lemma patch_of_twice cfg year section q :
  patch_of cfg year section (patch_of cfg year section q) = patch_of cfg year section q.
Proof.
  unfold patch_of.
  destruct (update_union_view_after cfg year section q) as [H | H]; cbn in H.
  - now rewrite H.
  - now rewrite (update_union_view_marker _ _ _ _ H).
Qed.

End LoopFacts.

(** X8. [update_union_views] touches only the views of the sections that were
    uploaded: a view that is not one of the four union views, or whose
    section has no uploaded file, keeps its query, and no view is created. *)
Theorem update_union_views_frame (cfg : config) (year : str) (gcs_paths : list (str * str))
    (w : LoaderRun.warehouse) (view_id : str)
    (Hother : forall section,
        LoaderRun.section_of_view view_id LoaderRun.view_mapping = Some section ->
        LoaderRun.uploaded section gcs_paths = false) :
  LoaderRun.get_view view_id (LoaderRun.update_union_views cfg year gcs_paths w)
  = LoaderRun.get_view view_id w.
Proof.
  rewrite update_union_views_get.
  destruct (LoaderRun.section_of_view view_id LoaderRun.view_mapping) as [section|];
    [|reflexivity].
  rewrite (Hother section eq_refl). now destruct (LoaderRun.get_view view_id w).
Qed.

Lemma update_union_views_frame_witness :
  LoaderRun.get_view (lit "eavs-392800.eavs_analytics.eavs_county_mail_union")
    (LoaderRun.update_union_views Example.cfg (lit "2024")
       [(lit "a_reg", lit "gs://eavs-data-files/2024/a_reg.csv")] Example.views)
  = Some (lit "SELECT 1").
Proof.
  refine (update_union_views_frame Example.cfg (lit "2024")
            [(lit "a_reg", lit "gs://eavs-data-files/2024/a_reg.csv")] Example.views
            (lit "eavs-392800.eavs_analytics.eavs_county_mail_union") _).
  intros section H. vm_compute in H. injection H as <-. reflexivity.
Defined.

(** X9. Running [update_union_views] a second time, after a first run whose
    updates all went through, changes no view: every query is the one the
    first run left. *)
Theorem update_union_views_idempotent (cfg : config) (year : str)
    (gcs_paths : list (str * str)) (w : LoaderRun.warehouse) (view_id : str) :
  LoaderRun.get_view view_id
    (LoaderRun.update_union_views cfg year gcs_paths
       (LoaderRun.update_union_views cfg year gcs_paths w))
  = LoaderRun.get_view view_id (LoaderRun.update_union_views cfg year gcs_paths w).
Proof.
  rewrite (update_union_views_get cfg year gcs_paths
             (LoaderRun.update_union_views cfg year gcs_paths w)).
  rewrite update_union_views_get.
  destruct (LoaderRun.section_of_view view_id LoaderRun.view_mapping) as [section|];
    [|reflexivity].
  destruct (LoaderRun.get_view view_id w) as [q|]; [|reflexivity].
  destruct (LoaderRun.uploaded section gcs_paths); [|reflexivity].
  now rewrite patch_of_twice.
Qed.

(** ** The denominator views *)

Section DenominatorPatchFacts.

Lemma lang_ILit w t : lang (Re.ILit w) t -> map lower_char t = map lower_char w.
Proof.
  revert t. unfold Re.ILit. induction w as [|c w IH]; intros t; cbn.
  - now intros ->.
  - intros (t1 & t2 & -> & (x & -> & Hx) & L). apply ascii_eqb_eq in Hx.
    cbn. rewrite Hx. f_equal. now apply IH.
Qed.

Lemma agree_common a x b y : a ++ x = b ++ y -> agree a b = true.
Proof.
  revert b. induction a as [|c a IH]; intros [|d b] H; cbn; try reflexivity.
  injection H as -> H. rewrite (proj2 (ascii_eqb_eq d d) eq_refl). cbn. eauto.
Qed.

Lemma contains_refl x : contains x x = true.
Proof. apply contains_spec. exists [], []. now rewrite app_nil_r. Qed.

Lemma contains_app_l needle a b : contains needle a = true -> contains needle (a ++ b) = true.
Proof.
  rewrite !contains_spec. intros (pre & post & ->). exists pre, (post ++ b).
  now rewrite <- !app_assoc.
Qed.

Lemma contains_splice_outside needle A B C q X :
  contains needle B = true ->
  q <= length A \/ length A + length B <= q ->
  contains needle (splice (A ++ B ++ C) q X) = true.
Proof.
  intros Hc Hq. unfold splice.
  rewrite (take_app A (B ++ C)), (take_app B C), (drop_app A (B ++ C)), (drop_app B C).
  destruct Hq as [Hq | Hq].
  - replace (q - length A) with 0 by lia. cbn [minus]. rewrite !drop_0.
    apply contains_app_r, contains_app_r, contains_app_r. now apply contains_app_l.
  - rewrite (take_ge A), (take_ge B) by lia.
    apply contains_app_l, contains_app_r. now apply contains_app_l.
Qed.

(** A text that ends, case aside, in [target], cut where an inserted block
    [B] has only its first [k] characters behind the cut. *)
Lemma ends_inside_block target A B u w k :
  map lower_char w = target ->
  u ++ w = A ++ take k B ->
  agree (rev target) (rev (map lower_char (take k B))) = true.
Proof.
  intros <- H. apply (f_equal (map lower_char)) in H. rewrite !map_app in H.
  apply (f_equal (@rev _)) in H. rewrite !rev_app_distr in H.
  eapply agree_common, H.
Qed.

End DenominatorPatchFacts.

Section AcsFacts.
Import Denominators.

Lemma acs_block_eq : acs_block = nl ++ new_cte ++ lit ",".
Proof. reflexivity. Qed.

Lemma acs_block_check :
  forallb (fun k => negb (agree (rev (lit "acs_2021"))
                            (rev (map lower_char (take k acs_block)))))
          (seq 1 (length acs_block - 1)) = true.
Proof. vm_compute. reflexivity. Qed.

Lemma lang_acs_union_pattern t :
  lang union_pattern t -> exists u w, t = u ++ w /\ map lower_char w = lit "acs_2021".
Proof.
  unfold union_pattern. cbn [lang Re.seq].
  intros (t1 & r1 & -> & L1 & t2 & r2 & -> & L2 & t3 & r3 & -> & L3 & t4 & r4 & -> & L4
          & t5 & r5 & -> & L5 & t6 & r6 & -> & L6 & t7 & r7 & -> & L7 & ->).
  apply lang_ILit in L7.
  exists (t1 ++ t2 ++ t3 ++ t4 ++ t5 ++ t6), t7. rewrite app_nil_r, <- !app_assoc.
  split; [reflexivity|exact L7].
Qed.

Lemma acs_arm_outside_block existing_sql f f2 :
  Re.search union_pattern (splice existing_sql (Re.stop f) acs_block) = Some f2 ->
  Re.stop f2 <= length (take (Re.stop f) existing_sql)
  \/ length (take (Re.stop f) existing_sql) + length acs_block <= Re.stop f2.
Proof.
  intros H. apply search_sound in H. destruct H as (pre & t & post & Hsplit & L & _ & He).
  apply lang_acs_union_pattern in L. destruct L as (u & w & -> & Hw).
  set (A := take (Re.stop f) existing_sql) in *.
  set (q := Re.stop f2) in *.
  destruct (le_gt_dec q (length A)) as [|Hgt]; [now left|].
  destruct (le_gt_dec (length A + length acs_block) q) as [|Hlt]; [now right|].
  exfalso.
  assert (Hk : In (q - length A) (seq 1 (length acs_block - 1))) by (apply in_seq; lia).
  pose proof (proj1 (forallb_forall _ _) acs_block_check _ Hk) as Hchk.
  apply negb_true_iff in Hchk.
  rewrite (ends_inside_block (lit "acs_2021") A acs_block (pre ++ u) w) in Hchk;
    [discriminate|exact Hw|].
  rewrite <- app_assoc.
  assert (Htake : take q (splice existing_sql (Re.stop f) acs_block) = pre ++ u ++ w).
  { rewrite Hsplit, app_assoc. rewrite He. apply take_app_length. }
  rewrite <- Htake. unfold splice. fold A.
  rewrite take_app, take_ge by lia. f_equal.
  rewrite take_app_le by lia. reflexivity.
Qed.

End AcsFacts.

(** X10. When [update_acs_population_union_view] replaces the query of the view,
    the new query holds the whole CTE of 2024 and the whole new union arm,
    and the old query is a subsequence of it: the view never receives a text
    with only one of the two. *)
Theorem acs_update_complete (existing_sql updated_sql : str)
    (Hup : Denominators.update_acs_population_union_view existing_sql = Updated updated_sql) :
  contains Denominators.new_cte updated_sql = true
  /\ contains Denominators.union_statement updated_sql = true
  /\ existing_sql `sublist_of` updated_sql.
Proof.
  unfold Denominators.update_acs_population_union_view in Hup.
  destruct (_ || _); [discriminate|].
  destruct (Re.search Denominators.pattern existing_sql) as [f|]; [|discriminate].
  fold acs_block in Hup.
  destruct (Re.search Denominators.union_pattern _) as [f2|] eqn:E2; [|discriminate].
  injection Hup as <-. split; [|split].
  - unfold splice at 2. apply contains_splice_outside.
    + unfold acs_block. apply contains_app_r, contains_app_l, contains_refl.
    + apply (acs_arm_outside_block _ _ _ E2).
  - apply contains_splice, contains_refl.
  - etransitivity; apply splice_sublist.
Qed.

Lemma acs_update_complete_witness :
  let existing_sql :=
    concat [ lit "WITH acs_2021 AS ( SELECT 1 FROM t ),"; nl;
             lit "union_all AS ( select * from acs_2021 ) SELECT * FROM union_all" ] in
  exists updated_sql,
    Denominators.update_acs_population_union_view existing_sql = Updated updated_sql
    /\ contains Denominators.new_cte updated_sql = true
    /\ contains Denominators.union_statement updated_sql = true.
Proof.
  cbv zeta. eexists. split; [vm_compute; reflexivity|].
  match goal with
  | |- contains _ ?u = true /\ _ =>
    pose proof (acs_update_complete
      (concat [ lit "WITH acs_2021 AS ( SELECT 1 FROM t ),"; nl;
                lit "union_all AS ( select * from acs_2021 ) SELECT * FROM union_all" ])
      u) as H
  end.
  destruct H as (H1 & H2 & _); [vm_compute; reflexivity|]. split; assumption.
Defined.

(** X11. Every text that the two denominator updates send to the warehouse or
    write to a side file is the existing query with text inserted: the
    existing query is a subsequence of it, and the file
    [*_current.sql] holds the existing query itself. *)
Theorem denominator_updates_only_insert (existing_sql : str) :
  (forall updated_sql,
     Denominators.update_acs_population_union_view existing_sql = Updated updated_sql
     \/ Vep.update_vep_union_view existing_sql = Updated updated_sql ->
     existing_sql `sublist_of` updated_sql)
  /\ (forall filename sql,
        Denominators.update_acs_population_union_view existing_sql
        = SavedForReview filename sql
        \/ Vep.update_vep_union_view existing_sql = SavedForReview filename sql ->
        existing_sql `sublist_of` sql
        /\ (filename = lit "acs_population_union_current.sql"
            \/ filename = lit "vep_union_current.sql" -> sql = existing_sql)).
Proof.
  unfold Denominators.update_acs_population_union_view, Vep.update_vep_union_view.
  split.
  - intros updated_sql [H | H].
    + destruct (_ || _); [discriminate|].
      destruct (Re.search _ existing_sql); [|discriminate].
      destruct (Re.search _ _); [|discriminate].
      injection H as <-. etransitivity; apply splice_sublist.
    + destruct (_ || _); [discriminate|].
      destruct (Re.search _ existing_sql); [|discriminate].
      destruct (Re.search _ _); [|discriminate].
      injection H as <-. etransitivity; apply splice_sublist.
  - intros filename sql [H | H].
    + destruct (_ || _); [discriminate|].
      destruct (Re.search _ existing_sql).
      * destruct (Re.search _ _); [discriminate|]. injection H as <- <-.
        split; [apply splice_sublist|]. intros [E | E]; vm_compute in E; discriminate.
      * injection H as <- <-. split; [reflexivity|auto].
    + destruct (_ || _); [discriminate|].
      destruct (Re.search _ existing_sql).
      * destruct (Re.search _ _); [discriminate|]. injection H as <- <-.
        split; [apply splice_sublist|]. intros [E | E]; vm_compute in E; discriminate.
      * injection H as <- <-. split; [reflexivity|auto].
Qed.

Lemma denominator_updates_only_insert_witness :
  lit "SELECT 1" `sublist_of` lit "SELECT 1"
  /\ (lit "vep_union_current.sql" = lit "acs_population_union_current.sql"
      \/ lit "vep_union_current.sql" = lit "vep_union_current.sql" ->
      lit "SELECT 1" = lit "SELECT 1").
Proof.
  refine (proj2 (denominator_updates_only_insert (lit "SELECT 1"))
            (lit "vep_union_current.sql") (lit "SELECT 1") _).
  right. vm_compute. reflexivity.
Defined.

Section VepFacts.
Import Vep.

Lemma vep_marker_in_union_statement : contains (lit "vep_2024") union_statement = true.
Proof. reflexivity. Qed.

Lemma vep_update_after existing_sql :
  let s' := view_after existing_sql (update_vep_union_view existing_sql) in
  s' = existing_sql \/ contains (lit "vep_2024") s' = true.
Proof.
  simpl. unfold update_vep_union_view.
  destruct (_ || _); [now left|].
  destruct (Re.search pattern existing_sql); [|now left].
  destruct (Re.search select_pattern _); [|now left].
  right. simpl. apply contains_splice, vep_marker_in_union_statement.
Qed.

End VepFacts.

(** X12. [update_vep_union_view] is idempotent: a view whose query holds ['2024']
    (quoted) or [vep_2024] is reported as already included and left alone;
    the view after a second run is the view after the first, and a run that
    changed the view is followed by one that reports it already included. *)
Theorem vep_update_idempotent (existing_sql : str) :
  let patch := fun sql => view_after sql (Vep.update_vep_union_view sql) in
  (contains (lit "'2024'") existing_sql || contains (lit "vep_2024") existing_sql = true ->
   Vep.update_vep_union_view existing_sql = AlreadyIncluded)
  /\ patch (patch existing_sql) = patch existing_sql
  /\ (patch existing_sql <> existing_sql ->
      Vep.update_vep_union_view (patch existing_sql) = AlreadyIncluded).
Proof.
  intros patch.
  assert (Ha : forall sql, contains (lit "vep_2024") sql = true ->
             Vep.update_vep_union_view sql = AlreadyIncluded).
  { intros sql H. unfold Vep.update_vep_union_view. now rewrite H, orb_true_r. }
  pose proof (vep_update_after existing_sql) as Hq. simpl in Hq.
  fold (patch existing_sql) in Hq.
  split; [|split].
  - intros H. unfold Vep.update_vep_union_view. now rewrite H.
  - destruct Hq as [Hq | Hq]; [now rewrite Hq|].
    unfold patch at 1. now rewrite (Ha _ Hq).
  - intros Hne. destruct Hq as [Hq | Hq]; [contradiction|]. now apply Ha.
Qed.

Lemma vep_update_idempotent_witness :
  Vep.update_vep_union_view (lit "with vep_2024 as (select 1) select * from vep_2024")
  = AlreadyIncluded.
Proof.
  exact (proj1 (vep_update_idempotent
                  (lit "with vep_2024 as (select 1) select * from vep_2024")) eq_refl).
Defined.

Section VepCompleteFacts.
Import Vep.

Lemma drop_while_split p s :
  exists run, s = run ++ drop_while p s /\ Forall (fun c => p c = true) run.
Proof.
  induction s as [|c s (run & Hs & Hrun)]; cbn.
  - exists []. split; [reflexivity|constructor].
  - destruct (p c) eqn:E.
    + exists (c :: run). cbn. split; [now f_equal|now constructor].
    + exists []. split; [reflexivity|constructor].
Qed.

Lemma drop_while_head p s c y : drop_while p s = c :: y -> p c = false.
Proof.
  induction s as [|d s IH]; cbn; [discriminate|].
  destruct (p d) eqn:E; [exact IH|]. now intros [= <- <-].
Qed.

Lemma run_unique (p : ascii -> bool) a b c x d y :
  Forall (fun e => p e = true) a -> Forall (fun e => p e = true) b ->
  p c = false -> p d = false ->
  a ++ c :: x = b ++ d :: y -> c :: x = d :: y.
Proof.
  intros Ha. revert b. induction Ha as [|e a He Ha IH]; intros b Hb Hc Hd H.
  - destruct Hb as [|e b He Hb]; [exact H|]. cbn in H. injection H as -> _. congruence.
  - destruct Hb as [|e' b He' Hb]; cbn in H.
    + injection H as -> _. congruence.
    + injection H as _ H. now apply IH with b.
Qed.

Lemma lower_s_not_space c : lower_char c = "s"%char -> is_space c = false.
Proof.
  destruct c as [[] [] [] [] [] [] [] []]; vm_compute; congruence.
Qed.

Lemma lang_vep_select_pattern t :
  lang select_pattern t ->
  exists ws c w rest,
    t = ws ++ (c :: w) ++ rest
    /\ Forall (fun e => is_space e = true) ws
    /\ is_space c = false
    /\ map lower_char (c :: w) = lit "select * from vep_".
Proof.
  unfold select_pattern. cbn [lang Re.seq].
  intros (t1 & r1 & -> & L1 & t2 & r2 & -> & L2 & t3 & r3 & -> & L3 & ->).
  unfold Re.space in L1. apply lang_Plus_Chr in L1. destruct L1 as [_ Hws].
  apply lang_ILit in L2. destruct t2 as [|c w]; [discriminate|].
  exists t1, c, w, t3. rewrite app_nil_r. repeat split; auto.
  apply lower_s_not_space. cbn in L2. now injection L2.
Qed.

Lemma vep_block_check :
  forallb (fun k => negb (may_start (lit "select * from vep_") vep_block k))
          (seq 1 (length new_cte - 1)) = true.
Proof. vm_compute. reflexivity. Qed.

Lemma match_may_start t post block C k :
  lang select_pattern t ->
  t ++ post = drop k block ++ C ->
  may_start (lit "select * from vep_") block k = true.
Proof.
  intros L H. apply lang_vep_select_pattern in L.
  destruct L as (ws & c & w & rest & -> & Hws & Hc & Hw).
  unfold may_start.
  destruct (drop_while_split is_space (drop k block)) as (run & Hrun & Hsp).
  destruct (drop_while is_space (drop k block)) as [|d y] eqn:Ey; [reflexivity|].
  pose proof (drop_while_head _ _ _ _ Ey) as Hd.
  rewrite Hrun, <- !app_assoc in H. cbn [app] in H.
  apply (run_unique is_space) in H; auto.
  rewrite <- Hw.
  change (c :: w ++ rest ++ post) with ((c :: w) ++ rest ++ post) in H.
  change (d :: y ++ C) with ((d :: y) ++ C) in H.
  apply (f_equal (map lower_char)) in H. rewrite !map_app in H.
  eapply agree_common, H.
Qed.

Lemma vep_arm_outside_cte existing_sql f f2 :
  Re.search select_pattern (splice existing_sql (Re.stop f) vep_block) = Some f2 ->
  Re.start f2 <= length (take (Re.stop f) existing_sql)
  \/ length (take (Re.stop f) existing_sql) + length new_cte <= Re.start f2.
Proof.
  intros H. apply search_sound in H. destruct H as (pre & t & post & Hsplit & L & Hs & _).
  set (A := take (Re.stop f) existing_sql) in *.
  set (q := Re.start f2) in *.
  destruct (le_gt_dec q (length A)) as [|Hgt]; [now left|].
  destruct (le_gt_dec (length A + length new_cte) q) as [|Hlt]; [now right|].
  exfalso.
  assert (Hk : In (q - length A) (seq 1 (length new_cte - 1))) by (apply in_seq; lia).
  pose proof (proj1 (forallb_forall _ _) vep_block_check _ Hk) as Hchk.
  apply negb_true_iff in Hchk.
  rewrite (match_may_start t post vep_block (drop (Re.stop f) existing_sql)) in Hchk;
    [discriminate|exact L|].
  assert (Hdrop : drop q (splice existing_sql (Re.stop f) vep_block) = t ++ post).
  { rewrite Hsplit, Hs. apply drop_app_length. }
  rewrite <- Hdrop. unfold splice. fold A.
  rewrite drop_app, drop_ge by lia. cbn [app].
  assert (Hlen : q - length A <= length vep_block).
  { unfold vep_block. rewrite length_app. lia. }
  rewrite drop_app_le by exact Hlen. reflexivity.
Qed.

End VepCompleteFacts.

(** X13. When [update_vep_union_view] replaces the query of the view, the new
    query holds the whole CTE of 2024 and the whole new union arm. *)
Theorem vep_update_complete (existing_sql updated_sql : str)
    (Hup : Vep.update_vep_union_view existing_sql = Updated updated_sql) :
  contains Vep.new_cte updated_sql = true
  /\ contains Vep.union_statement updated_sql = true.
Proof.
  unfold Vep.update_vep_union_view in Hup.
  destruct (_ || _); [discriminate|].
  destruct (Re.search Vep.pattern existing_sql) as [f|]; [|discriminate].
  fold vep_block in Hup.
  destruct (Re.search Vep.select_pattern _) as [f2|] eqn:E2; [|discriminate].
  injection Hup as <-. split.
  - unfold splice at 2. unfold vep_block at 1. rewrite <- app_assoc.
    apply contains_splice_outside; [apply contains_refl|].
    apply (vep_arm_outside_cte _ _ _ E2).
  - apply contains_splice, contains_refl.
Qed.

Lemma vep_update_complete_witness :
  let existing_sql :=
    concat [ lit "with vep_2020 as (select 1),"; nl;
             lit "all_years as ("; nl;
             lit "    select * from vep_2020"; nl;
             lit ") select * from all_years" ] in
  exists updated_sql,
    Vep.update_vep_union_view existing_sql = Updated updated_sql
    /\ contains Vep.new_cte updated_sql = true
    /\ contains Vep.union_statement updated_sql = true.
Proof.
  cbv zeta. eexists. split; [vm_compute; reflexivity|].
  match goal with
  | |- contains _ ?u = true /\ _ =>
    pose proof (vep_update_complete
      (concat [ lit "with vep_2020 as (select 1),"; nl;
                lit "all_years as ("; nl;
                lit "    select * from vep_2020"; nl;
                lit ") select * from all_years" ])
      u) as H
  end.
  destruct H as (H1 & H2); [vm_compute; reflexivity|]. split; assumption.
Defined.

(** ** The checks after the load *)

Section PostloadFacts.
Import Validation Postload.

Lemma fips_lengths_keeps rows r :
  passed (fips_lengths rows r) = passed r /\ errors (fips_lengths rows r) = errors r.
Proof.
  revert r. induction rows as [|[l c] rows IH]; intros r; cbn [fips_lengths]; [auto|].
  destruct (IH (if negb (l =? 5)%Z
                then add_warning (concat [fmt_comma c; lit " rows have FIPS length ";
                                          str_of_int l; lit " (expected 5)"]) r
                else add_info (fmt_comma c ++ lit " rows have correct FIPS length (5)") r))
    as [-> ->].
  destruct (negb (l =? 5)%Z); auto.
Qed.

Lemma duplicate_errors_spec rows r :
  passed (duplicate_errors rows r) = passed r && match rows with [] => true | _ => false end
  /\ length (errors (duplicate_errors rows r)) = length (errors r) + length rows
  /\ warnings (duplicate_errors rows r) = warnings r.
Proof.
  revert r. induction rows as [|[f c] rows IH]; intros r; cbn [duplicate_errors].
  - rewrite andb_true_r. repeat split; cbn [length]; try reflexivity; lia.
  - destruct (IH (add_error (concat [lit "  FIPS "; f; lit ": "; str_of_int c; lit " times"])
                    r)) as (-> & -> & ->).
    cbn [passed errors warnings add_error]. rewrite length_app. cbn [length].
    rewrite ?andb_false_r. repeat split; try reflexivity; try lia.
    all: destruct rows; now rewrite ?andb_false_r, ?andb_true_r.
Qed.

Lemma filter_length_all {A} (p : A -> bool) l :
  length (List.filter p l) <= length l
  /\ (length (List.filter p l) = length l <-> forall x, In x l -> p x = true).
Proof.
  induction l as [|x l [IHle IHeq]]; cbn.
  - split; [lia|]. split; [intros _ x []|reflexivity].
  - destruct (p x) eqn:E; cbn.
    + split; [lia|]. split.
      * intros H y [<- | Hy]; [exact E|]. apply IHeq; [lia|exact Hy].
      * intros H. f_equal. apply IHeq. auto.
    + split; [lia|]. split; [lia|]. intros H. specialize (H x (or_introl eq_refl)).
      congruence.
Qed.

End PostloadFacts.

(** X14. [check_row_count]: a count outside the expected range of the section
    is a warning only; the check fails exactly when the table is empty, or
    when the query fails or returns no row.  ([lo], [hi] is the range of the
    section, 2500 to 3500 for a section without one.) *)
Theorem check_row_count_verdict (table_id section_code : str) (row_count : Z)
    (more : list Z) (message : str) :
  let r := Postload.check_row_count table_id section_code (Postload.Rows (row_count :: more)) in
  let lo := fst (Postload.range_get section_code Postload.EXPECTED_ROW_RANGES) in
  let hi := snd (Postload.range_get section_code Postload.EXPECTED_ROW_RANGES) in
  (Validation.passed r = true <-> row_count <> 0%Z)
  /\ (Validation.errors r = [] <-> row_count <> 0%Z)
  /\ (Validation.warnings r = [] <-> (lo <= row_count <= hi)%Z)
  /\ length (Validation.warnings r) <= 1
  /\ Validation.passed
       (Postload.check_row_count table_id section_code (Postload.Failed message)) = false
  /\ Validation.passed
       (Postload.check_row_count table_id section_code (Postload.Rows [])) = false.
Proof.
  cbv zeta. unfold Postload.check_row_count.
  destruct (Postload.range_get section_code Postload.EXPECTED_ROW_RANGES) as [lo hi].
  cbn [fst snd].
  destruct (Z.ltb_spec row_count lo), (Z.ltb_spec hi row_count), (Z.eqb_spec row_count 0);
    cbn; repeat split; intros; try congruence; try lia; try discriminate.
Qed.

(** X15. [check_duplicate_fips]: the check passes exactly when the query for
    repeated codes returns no row; otherwise it records one error for the
    number of codes and one for each of the first five.  A query that fails
    leaves the check passed, with a warning. *)
Theorem check_duplicate_fips_verdict (table_id : str) (rows : list (str * Z)) (message : str) :
  let r := Postload.check_duplicate_fips table_id (Postload.Rows rows) in
  let failed := Postload.check_duplicate_fips table_id (Postload.Failed message) in
  (Validation.passed r = true <-> rows = [])
  /\ length (Validation.errors r)
     = match rows with [] => 0 | _ => 1 + Nat.min 5 (length rows) end
  /\ Validation.warnings r = []
  /\ Validation.passed failed = true
  /\ Validation.errors failed = []
  /\ length (Validation.warnings failed) = 1.
Proof.
  cbv zeta. unfold Postload.check_duplicate_fips.
  destruct rows as [|row rows]; [cbn; repeat split; auto; discriminate|].
  match goal with
  | |- context [Postload.duplicate_errors ?l ?r0] =>
    destruct (duplicate_errors_spec l r0) as (-> & -> & ->)
  end.
  cbn [Validation.passed Validation.errors Validation.warnings Validation.add_error
       Validation.add_warning Validation.init andb].
  rewrite length_take. cbn [length app].
  repeat split; try reflexivity; try discriminate; try lia.
Qed.

(** X16. [check_fips_validity]: the check fails exactly when the first query
    counts rows without a FIPS code; a query that fails and FIPS codes of
    another length than 5 are warnings. *)
Theorem check_fips_validity_verdict (table_id : str) (null_query : Postload.answer Z)
    (length_query : Postload.answer (Z * Z)) :
  let r := Postload.check_fips_validity table_id null_query length_query in
  (Validation.passed r = false
   <-> exists null_count more, null_query = Postload.Rows (null_count :: more)
                               /\ (0 < null_count)%Z)
  /\ length (Validation.errors r) <= 1.
Proof.
  cbv zeta. unfold Postload.check_fips_validity.
  assert (H : forall r0,
    Validation.passed (match length_query with
       | Postload.Rows rows => Postload.fips_lengths rows r0
       | Postload.Failed e =>
         Validation.add_warning (lit "Could not check FIPS format: " ++ e) r0
       end) = Validation.passed r0
    /\ Validation.errors (match length_query with
       | Postload.Rows rows => Postload.fips_lengths rows r0
       | Postload.Failed e =>
         Validation.add_warning (lit "Could not check FIPS format: " ++ e) r0
       end) = Validation.errors r0).
  { intros r0. destruct length_query; [apply fips_lengths_keeps|split; reflexivity]. }
  match goal with
  | |- context [Postload.fips_nulls ?q ?r0] => destruct (H (Postload.fips_nulls q r0)) as [-> ->]
  end.
  unfold Postload.fips_nulls.
  destruct null_query as [[|n more]|e]; cbn.
  - split; [|lia]. split; [discriminate|]. intros (? & ? & ? & ?). discriminate.
  - destruct (Z.ltb_spec 0 n); cbn.
    + split; [|lia]. split; [eauto|reflexivity].
    + split; [|lia]. split; [discriminate|].
      intros (n' & more' & E & Hn). injection E as <- <-. lia.
  - split; [|lia]. split; [discriminate|]. intros (? & ? & ? & ?). discriminate.
Qed.

(** X17. The exit code of the validation is 0 exactly when every check passed,
    and 1 otherwise; warnings do not enter into it. *)
Theorem exit_code_verdict (all_results : list Validation.ValidationResult) :
  (Postload.exit_code all_results = 0%Z
   <-> forall r, In r all_results -> Validation.passed r = true)
  /\ (Postload.exit_code all_results = 1%Z
      <-> exists r, In r all_results /\ Validation.passed r = false)
  /\ (forall m, Postload.exit_code (map (Validation.add_warning m) all_results)
                = Postload.exit_code all_results).
Proof.
  unfold Postload.exit_code.
  destruct (filter_length_all Validation.passed all_results) as [Hle Heq].
  split; [|split].
  - destruct (Nat.eqb_spec (length all_results
                            - length (List.filter Validation.passed all_results)) 0)
      as [E | E].
    + split; [intros _|reflexivity]. apply Heq. lia.
    + split; [discriminate|]. intros H. apply Heq in H. lia.
  - destruct (Nat.eqb_spec (length all_results
                            - length (List.filter Validation.passed all_results)) 0)
      as [E | E].
    + split; [discriminate|]. intros (r & Hin & Hr).
      assert (Hall : forall x, In x all_results -> Validation.passed x = true)
        by (apply Heq; lia).
      rewrite (Hall r Hin) in Hr. discriminate.
    + split; [intros _|reflexivity].
      destruct (forallb Validation.passed all_results) eqn:Ef.
      * elim E. rewrite forallb_forall in Ef. apply Heq in Ef. lia.
      * clear - Ef. induction all_results as [|x l IH]; [discriminate|]. cbn in Ef.
        destruct (Validation.passed x) eqn:Ex.
        -- destruct (IH Ef) as (r & Hin & Hr). exists r. split; [now right|exact Hr].
        -- exists x. split; [now left|exact Ex].
  - intros m. rewrite length_map.
    assert (E : length (List.filter Validation.passed
                          (map (Validation.add_warning m) all_results))
                = length (List.filter Validation.passed all_results)).
    { clear. induction all_results as [|x l IH]; cbn; [reflexivity|].
      destruct (Validation.passed x); cbn; now rewrite IH. }
    now rewrite E.
Qed.

(** ** The template generator *)

Section TemplateFacts.
Import Template.

Lemma starts_with_contains old s : starts_with old s = true -> contains old s = true.
Proof. intros H. destruct s; cbn; now rewrite H. Qed.

Lemma contains_tail old c s : contains old (c :: s) = false -> contains old s = false.
Proof. cbn. now intros [_ H]%orb_false_iff. Qed.

Lemma replace_go_absent old new s :
  contains old s = false -> replace_go old new 0 s = s.
Proof.
  induction s as [|c s IH]; intros H; [reflexivity|]. cbn [replace_go].
  destruct (starts_with old (c :: s)) eqn:E.
  - apply starts_with_contains in E. congruence.
  - f_equal. apply IH. eapply contains_tail, H.
Qed.

Lemma replace_absent old new s :
  old <> [] -> contains old s = false -> replace old new s = s.
Proof.
  intros Hne H. destruct old; [contradiction|]. now apply replace_go_absent.
Qed.

Lemma contains_prefix_false a b s : contains a s = false -> contains (a ++ b) s = false.
Proof.
  intros H. destruct (contains (a ++ b) s) eqn:E; [|reflexivity].
  apply contains_spec in E. destruct E as (pre & post & ->).
  rewrite <- app_assoc in H.
  assert (contains a (pre ++ a ++ b ++ post) = true) by (apply contains_spec; eauto).
  congruence.
Qed.

Lemma dict_set_braced k v d : braced (k, v) -> Forall braced d -> Forall braced (dict_set k v d).
Proof.
  intros Hk Hd. induction Hd as [|[k' v'] d Hkv Hd IH]; cbn.
  - now repeat constructor.
  - destruct (str_eqb k k'); constructor; auto.
Qed.

Lemma add_fields_braced year fields d : Forall braced d -> Forall braced (add_fields year fields d).
Proof.
  revert d. induction fields as [|[f src] fields IH]; intros d Hd; cbn; [exact Hd|].
  apply IH, dict_set_braced; [|exact Hd]. eexists. cbn. reflexivity.
Qed.

Lemma add_years_braced m years d r :
  Forall braced d -> add_years m years d = Ok r -> Forall braced r.
Proof.
  revert d. induction years as [|y years IH]; intros d Hd; cbn [add_years].
  - now intros [= <-].
  - destruct (TemplateGenerator.year_mappings_of m y) as [ym|]; cbn [bind]; [|discriminate].
    destruct (items ym) as [fields|]; cbn [bind]; [|discriminate].
    apply IH. now apply add_fields_braced.
Qed.

Lemma apply_replacements_absent d s g :
  Forall braced d -> contains (lit "{{") s = false -> apply_replacements d s = Ok g -> g = s.
Proof.
  intros Hd Hs. induction Hd as [|[k v] d (x & Hk) Hd IH]; cbn [apply_replacements].
  - now intros [= <-].
  - cbn in Hk. subst k. destruct v as [|r|truth text]; try discriminate.
    rewrite replace_absent; [exact IH|discriminate|].
    exact (contains_prefix_false (lit "{{") x s Hs).
Qed.

Lemma dict_set_strings k v (d : list (str * source)) :
  is_string v = true -> Forall (fun kv => is_string (snd kv) = true) d ->
  Forall (fun kv => is_string (snd kv) = true) (dict_set k v d).
Proof.
  intros Hv Hd. induction Hd as [|[k' v'] d Hkv Hd IH]; cbn [dict_set].
  - now repeat constructor.
  - destruct (str_eqb k k'); constructor; auto.
Qed.

Lemma replacement_string v : string_or_none v = true -> is_string (replacement v) = true.
Proof.
  destruct v as [|e|truth text]; try discriminate; [reflexivity|]. intros _.
  unfold replacement. cbn [is_null_word is_none]. rewrite orb_false_r.
  now destruct (str_eqb e (lit "null")).
Qed.

Lemma add_fields_strings year fields d :
  Forall (fun kv => string_or_none (snd kv) = true) fields ->
  Forall (fun kv => is_string (snd kv) = true) d ->
  Forall (fun kv => is_string (snd kv) = true) (add_fields year fields d).
Proof.
  intros Hf. revert d. induction Hf as [|[f src] fields Hsrc Hf IH]; intros d Hd;
    cbn [add_fields]; [exact Hd|].
  apply IH, dict_set_strings; [|exact Hd]. now apply replacement_string.
Qed.

Lemma add_years_strings m years : forall d,
  Forall (fun kv => is_string (snd kv) = true) d ->
  Forall (fun y => exists fields,
            TemplateGenerator.year_mappings_of m y = Ok (VDict fields)
            /\ Forall (fun kv => string_or_none (snd kv) = true) fields) years ->
  exists r, add_years m years d = Ok r /\ Forall (fun kv => is_string (snd kv) = true) r.
Proof.
  induction years as [|y years IH]; intros d Hd Hy; cbn [add_years].
  - now exists d.
  - inversion Hy as [|? ? (fields & E & Hf) Hrest]; subst. rewrite E. cbn [bind items].
    apply IH; [|exact Hrest]. now apply add_fields_strings.
Qed.

Lemma apply_replacements_strings d : forall s,
  Forall (fun kv => is_string (snd kv) = true) d -> is_ok (apply_replacements d s) = true.
Proof.
  induction d as [|[k v] d IH]; intros s Hd; cbn [apply_replacements]; [reflexivity|].
  inversion Hd as [|? ? Hv Hrest]; subst. destruct v; try discriminate. now apply IH.
Qed.

Lemma add_years_ok m years d :
  is_ok (add_years m years d) = true
  <-> Forall (fun y => exists fields,
                TemplateGenerator.year_mappings_of m y = Ok (VDict fields)) years.
Proof.
  revert d. induction years as [|y years IH]; intros d; cbn [add_years].
  - split; [constructor|reflexivity].
  - destruct (TemplateGenerator.year_mappings_of m y) as [ym|e] eqn:E; cbn [bind].
    + destruct ym as [|l|fields]; cbn [items bind].
      * split; [discriminate|]. intros H. inversion H as [|? ? (f & Hf) _]. congruence.
      * split; [discriminate|]. intros H. inversion H as [|? ? (f & Hf) _]. congruence.
      * rewrite IH. split; [intros H; constructor; eauto|intros H; now inversion H].
    + split; [discriminate|]. intros H. inversion H as [|? ? (f & Hf) _]. congruence.
Qed.

End TemplateFacts.

(** X18. A template that holds no ["{{"] comes out of [generate_view_sql] as it
    went in, whatever the mappings are (unless the call raises). *)
Theorem template_without_placeholders_unchanged (cfg : config) (template mapping_key : str)
    (generated_sql : str)
    (Hplain : contains (lit "{{") template = false)
    (Hok : Template.generate_view_sql cfg template mapping_key = Ok generated_sql) :
  generated_sql = template.
Proof.
  unfold Template.generate_view_sql in Hok.
  destruct (Template.add_years _ _ []) as [r|] eqn:E; cbn [bind] in Hok; [|discriminate].
  apply (apply_replacements_absent r); [|exact Hplain|exact Hok].
  eapply add_years_braced; [|exact E]. constructor.
Qed.

Lemma template_without_placeholders_unchanged_witness :
  Template.generate_view_sql Example.cfg (lit "SELECT a FROM t") (lit "registration_mappings")
  = Ok (lit "SELECT a FROM t").
Proof.
  assert (H : exists g, Template.generate_view_sql Example.cfg (lit "SELECT a FROM t")
                          (lit "registration_mappings") = Ok g)
    by (eexists; vm_compute; reflexivity).
  destruct H as [g Hg]. rewrite Hg. f_equal.
  exact (template_without_placeholders_unchanged Example.cfg (lit "SELECT a FROM t")
           (lit "registration_mappings") g eq_refl Hg).
Defined.

(** X19. [generate_view_sql] raises when one key of the mapping other than
    [standard_fields] is rejected by [int] or leads to something else than
    a dict.  It returns a text when every such key is accepted by [int] and
    leads to a dict whose values are all strings or [None]; a value of
    another kind is not among the conditions under which it returns, since
    [str.replace] does not take it. *)
Theorem generate_view_sql_returns (cfg : config) (template mapping_key : str) :
  let m := Generator.mappings_of cfg mapping_key in
  (is_ok (Template.generate_view_sql cfg template mapping_key) = true ->
   Forall (fun year => exists fields,
             TemplateGenerator.year_mappings_of m year = Ok (VDict fields))
     (Template.years_of m))
  /\ (Forall (fun year => exists fields,
                TemplateGenerator.year_mappings_of m year = Ok (VDict fields)
                /\ Forall (fun kv => string_or_none (snd kv) = true) fields)
        (Template.years_of m) ->
      is_ok (Template.generate_view_sql cfg template mapping_key) = true).
Proof.
  intros m. unfold Template.generate_view_sql. fold m. split.
  - intros H. apply (add_years_ok m _ []).
    now destruct (Template.add_years m (Template.years_of m) []).
  - intros H.
    destruct (add_years_strings m _ [] (List.Forall_nil _) H) as (r & -> & Hr).
    cbn [bind]. now apply apply_replacements_strings.
Qed.

Lemma generate_view_sql_returns_witness :
  is_ok (Template.generate_view_sql Example.cfg (lit "SELECT {{a_2018}} FROM t")
           (lit "registration_mappings")) = true.
Proof.
  apply (generate_view_sql_returns Example.cfg (lit "SELECT {{a_2018}} FROM t")
           (lit "registration_mappings")).
  vm_compute. repeat (constructor; [eexists; split; [reflexivity|repeat constructor]|]).
  constructor.
Defined.

(** ** The mapping validator *)

Section ValidatorFacts.
Import MappingValidator.

Lemma find_similar_field_In target available field :
  Suggest.find_similar_field target available = Some field -> In field available.
Proof.
  unfold Suggest.find_similar_field. intros E.
  destruct (Suggest.first_field _ available) as [f1|] eqn:E1.
  { injection E as <-. eapply first_field_In, E1. }
  destruct (Suggest.first_field _ available) as [f2|] eqn:E2 in E.
  { injection E as <-. eapply first_field_In, E2. }
  apply first_some_elim in E. destruct E as ([pattern alts] & _ & E).
  destruct (contains pattern (lower target)); [|discriminate].
  apply first_some_elim in E. destruct E as (alt & _ & E).
  eapply first_field_In, E.
Qed.

Lemma str_in_In x l : str_in x l = true -> In x l.
Proof.
  unfold str_in. rewrite existsb_exists. intros (y & Hy & E).
  apply str_eqb_eq in E. now subst.
Qed.

Lemma dict_set_vals P k v d : P v -> vals_ok P d -> vals_ok P (Template.dict_set k v d).
Proof.
  intros Hv Hd. induction Hd as [|[k' v'] d Hkv Hd IH]; cbn.
  - now repeat constructor.
  - destruct (str_eqb k k'); constructor; auto.
Qed.

Lemma update_all_vals P d acc : vals_ok P d -> vals_ok P acc -> vals_ok P (update_all d acc).
Proof.
  unfold update_all. intros Hd. revert acc.
  induction Hd as [|[k v] d Hkv Hd IH]; intros acc Hacc; cbn; [exact Hacc|].
  apply IH. now apply dict_set_vals.
Qed.

Lemma check_mappings_vals (actual : list str) fields : forall t t',
  check_mappings actual fields t = Ok t' ->
  vals_ok (fun v => v = lit "null" \/ In v actual) (valid t) ->
  vals_ok (fun v => In v actual) (corrected t) ->
  vals_ok (fun v => v = lit "null" \/ In v actual) (valid t')
  /\ vals_ok (fun v => In v actual) (corrected t').
Proof.
  induction fields as [|[f src] fields IH]; intros t t'; cbn [check_mappings].
  - intros [= <-]. auto.
  - destruct src as [|src|truth text]; [| |discriminate]; intros E Hv Hc; apply (IH _ _ E).
    + cbn. apply dict_set_vals; auto.
    + exact Hc.
    + destruct (str_eqb src (lit "null")); [cbn; apply dict_set_vals; auto|].
      destruct (str_in src actual) eqn:E'; cbn; [|exact Hv].
      apply dict_set_vals; [|exact Hv]. right. now apply str_in_In.
    + destruct (str_eqb src (lit "null")); [exact Hc|].
      destruct (str_in src actual); cbn; [exact Hc|].
      destruct (Suggest.find_similar_field src actual) as [similar|] eqn:E'; [|exact Hc].
      destruct (str_eqb similar []); [exact Hc|].
      apply dict_set_vals; [|exact Hc]. eapply find_similar_field_In, E'.
Qed.

Lemma vals_ok_impl (P Q : str -> Prop) d : (forall v, P v -> Q v) -> vals_ok P d -> vals_ok Q d.
Proof. intros H Hd. eapply Forall_impl; [exact Hd|]. intros [k v]. apply H. Qed.

Lemma validate_section_mappings_good cfg year section mapping_key actual_of sr :
  validate_section_mappings cfg year section mapping_key (actual_of section) = Ok sr ->
  good_result actual_of sr.
Proof.
  unfold validate_section_mappings.
  destruct (actual_of section) as [|a actual] eqn:Ea; [intros [= <-]; exact I|].
  destruct (Generator.year_mappings_of _ year) as [ym|]; cbn [bind]; [|discriminate].
  destruct (negb (truthy ym)); [intros [= <-]; exact I|].
  destruct (len_of ym); cbn [bind]; [|discriminate].
  destruct (len_of _); cbn [bind]; [|discriminate].
  destruct (Template.items ym) as [fields|]; cbn [bind]; [|discriminate].
  destruct (check_mappings (a :: actual) fields _) as [t|] eqn:Et; cbn [bind];
    [|discriminate].
  destruct (iterate _); cbn [bind]; [|discriminate].
  intros [= <-]. cbn [good_result valid_mappings corrected_mappings].
  destruct (check_mappings_vals (a :: actual) fields _ _ Et) as [Hv Hc];
    [constructor|constructor|].
  split.
  - eapply vals_ok_impl; [|exact Hv]. intros v [-> | Hin]; [now left|].
    right. exists section. now rewrite Ea.
  - eapply vals_ok_impl; [|exact Hc]. intros v Hin. right. exists section. now rewrite Ea.
Qed.

Lemma set_result_good actual_of k v d :
  good_result actual_of v ->
  Forall (fun e => good_result actual_of (snd e)) d ->
  Forall (fun e => good_result actual_of (snd e)) (set_result k v d).
Proof.
  intros Hv Hd. induction Hd as [|[k' v'] d Hkv Hd IH]; cbn.
  - now repeat constructor.
  - destruct (str_eqb k k'); constructor; auto.
Qed.

Lemma validate_sections_good cfg year actual_of todo acc vr :
  Forall (fun e => good_result actual_of (snd e)) acc ->
  validate_sections cfg year actual_of todo acc = Ok vr ->
  Forall (fun e => good_result actual_of (snd e)) vr.
Proof.
  revert acc. induction todo as [|[section mk] todo IH]; intros acc Hacc;
    cbn [validate_sections].
  - now intros [= <-].
  - destruct (validate_section_mappings cfg year section mk (actual_of section)) as [sr|]
      eqn:E; cbn [bind]; [|discriminate].
    apply IH. apply set_result_good; [|exact Hacc].
    eapply validate_section_mappings_good, E.
Qed.

Lemma corrected_year_mappings_vals actual_of r :
  good_result actual_of (Results r) ->
  vals_ok (real_source actual_of) (corrected_year_mappings r).
Proof.
  intros [Hv Hc]. unfold corrected_year_mappings.
  assert (H : vals_ok (real_source actual_of)
                (update_all (corrected_mappings r) (update_all (valid_mappings r) []))).
  { apply update_all_vals; [exact Hc|]. apply update_all_vals; [exact Hv|constructor]. }
  revert H. generalize (update_all (corrected_mappings r) (update_all (valid_mappings r) [])).
  induction (missing_mappings r) as [|f fs IH]; intros acc Hacc; cbn; [exact Hacc|].
  apply IH, dict_set_vals; [now left|exact Hacc].
Qed.

Lemma set_year_ok actual_of y v d :
  vals_ok (real_source actual_of) v -> years_ok actual_of d ->
  years_ok actual_of (set_year y v d).
Proof.
  intros Hv Hd. induction Hd as [|[y' v'] d Hkv Hd IH]; cbn.
  - now repeat constructor.
  - destruct (y =? y')%Z; constructor; auto.
Qed.

Lemma set_key_ok actual_of k v d :
  years_ok actual_of v -> Forall (fun e => years_ok actual_of (snd e)) d ->
  Forall (fun e => years_ok actual_of (snd e)) (set_key k v d).
Proof.
  intros Hv Hd. induction Hd as [|[k' v'] d Hkv Hd IH]; cbn.
  - now repeat constructor.
  - destruct (str_eqb k k'); constructor; auto.
Qed.

Lemma get_key_ok actual_of k d v :
  Forall (fun e => years_ok actual_of (snd e)) d -> get_key k d = Some v ->
  years_ok actual_of v.
Proof.
  intros Hd. induction Hd as [|[k' v'] d Hkv Hd IH]; cbn; [discriminate|].
  destruct (str_eqb k k'); [now intros [= <-]|exact IH].
Qed.

Lemma correct_sections_ok actual_of year values acc cc :
  Forall (good_result actual_of) values ->
  Forall (fun e => years_ok actual_of (snd e)) acc ->
  correct_sections year values acc = Ok cc ->
  Forall (fun e => years_ok actual_of (snd e)) cc.
Proof.
  intros Hvals. revert acc.
  induction Hvals as [|sr values Hsr Hvals IH]; intros acc Hacc; cbn [correct_sections].
  - now intros [= <-].
  - destruct sr as [e|r]; [now apply IH|].
    destruct (Loader.assoc (section r) Loader.config_map) as [mk|]; [|now apply IH].
    destruct (py_int year) as [y|]; cbn [bind]; [|discriminate].
    apply IH. pose proof (corrected_year_mappings_vals _ _ Hsr) as Hym.
    destruct (get_key mk acc) as [by_year|] eqn:Eg.
    + apply set_key_ok; [|exact Hacc]. apply set_year_ok; [exact Hym|].
      eapply get_key_ok; eauto.
    + apply set_key_ok; [|exact Hacc]. now repeat constructor.
Qed.

End ValidatorFacts.

(** X20. The corrected configuration that [generate_corrected_config] builds
    from the results of [run_validation] gives a field no source other than
    ['null'] or a column that really heads one of the files read. *)
Theorem corrected_config_names_real_fields (cfg : config) (year : str)
    (actual_fields_of : str -> list str)
    (validation_results : list (str * MappingValidator.section_result))
    (corrected_config : MappingValidator.correction)
    (Hrun : MappingValidator.run_validation cfg year actual_fields_of = Ok validation_results)
    (Hgen : MappingValidator.generate_corrected_config year validation_results
            = Ok corrected_config) :
  forall mapping_key by_year y year_mappings field source,
    In (mapping_key, by_year) corrected_config ->
    In (y, year_mappings) by_year ->
    In (field, source) year_mappings ->
    source = lit "null" \/ exists section, In source (actual_fields_of section).
Proof.
  intros mk by_year y ym f v Hmk Hy Hf.
  apply validate_sections_good in Hrun; [|constructor].
  apply correct_sections_ok with (actual_of := actual_fields_of) in Hgen;
    [| |constructor].
  - rewrite List.Forall_forall in Hgen. specialize (Hgen _ Hmk). cbn in Hgen.
    unfold years_ok in Hgen. rewrite List.Forall_forall in Hgen. specialize (Hgen _ Hy).
    cbn in Hgen. unfold vals_ok in Hgen. rewrite List.Forall_forall in Hgen.
    exact (Hgen _ Hf).
  - rewrite List.Forall_forall in *. intros sr Hin. apply List.in_map_iff in Hin.
    destruct Hin as ([k sr'] & <- & Hin). exact (Hrun _ Hin).
Qed.

Lemma corrected_config_names_real_fields_witness :
  lit "COL_A2" = lit "null"
  \/ exists section, In (lit "COL_A2") (ExampleFiles.actual_fields_of section).
Proof.
  pose proof (corrected_config_names_real_fields Example.cfg (lit "2018")
                ExampleFiles.actual_fields_of _ _ eq_refl eq_refl) as H.
  eapply (H (lit "registration_mappings") _ 2018%Z _ (lit "a") (lit "COL_A2")).
  - cbv. left. reflexivity.
  - cbv. left. reflexivity.
  - cbv. left. reflexivity.
Defined.

(** ** The check before the load *)

Section PreflightFacts.
Import Preflight.

Lemma In_str_in x l : In x l -> str_in x l = true.
Proof.
  unfold str_in. rewrite existsb_exists. intros H. exists x. split; [exact H|].
  now apply str_eqb_eq.
Qed.

Lemma found_in_spec h src :
  found_in h src = true <-> In src h \/ In (lower src) (map lower h).
Proof.
  unfold found_in. rewrite orb_true_iff. split.
  - intros [H | H]; [left | right]; now apply str_in_In.
  - intros [H | H]; [left | right]; now apply In_str_in.
Qed.

Lemma scan_missing_nil h fields : forall n0 m0,
  Forall (fun kv => string_or_none (snd kv) = true) fields ->
  exists nulls missing,
    scan h (map lower h) fields n0 m0 = Ok (nulls, missing)
    /\ (missing = []
        <-> m0 = [] /\ forall sf src, In (sf, SStr src) fields ->
                         str_eqb src (lit "null") = false -> found_in h src = true).
Proof.
  induction fields as [|[f src] fields IH]; intros n0 m0 Hs; cbn [scan].
  - exists n0, m0. split; [reflexivity|].
    split; [intros ->; split; [reflexivity|intros ? ? []]|now intros [-> _]].
  - inversion Hs as [|? ? Hsrc Hrest]; subst. cbn [snd] in Hsrc.
    destruct src as [|src|truth text]; [| |discriminate].
    + destruct (IH (n0 ++ [f]) m0 Hrest) as (nulls & missing & -> & Hm).
      exists nulls, missing. split; [reflexivity|]. rewrite Hm.
      split; intros [-> H]; split; auto.
      * intros sf src' [E | Hin] Hn; [discriminate|eauto].
      * intros sf src' Hin. apply (H sf). now right.
    + destruct (str_eqb src (lit "null")) eqn:En.
      * destruct (IH (n0 ++ [f]) m0 Hrest) as (nulls & missing & -> & Hm).
        exists nulls, missing. split; [reflexivity|]. rewrite Hm.
        split; intros [-> H]; split; auto.
        -- intros sf src' [E | Hin] Hn; [|eauto]. injection E as <- <-. congruence.
        -- intros sf src' Hin. apply (H sf). now right.
      * unfold found_in in *.
        destruct (str_in src h) eqn:E1; cbn [negb andb orb].
        -- destruct (IH n0 m0 Hrest) as (nulls & missing & -> & Hm).
           exists nulls, missing. split; [reflexivity|]. rewrite Hm.
           split; intros [-> H]; split; auto.
           ++ intros sf src' [E | Hin] Hn; [|eauto]. injection E as <- <-.
              now rewrite E1.
           ++ intros sf src' Hin. apply (H sf). now right.
        -- destruct (str_in (lower src) (map lower h)) eqn:E2; cbn [negb].
           ++ destruct (IH n0 m0 Hrest) as (nulls & missing & -> & Hm).
              exists nulls, missing. split; [reflexivity|]. rewrite Hm.
              split; intros [-> H]; split; auto.
              ** intros sf src' [E | Hin] Hn; [|eauto]. injection E as <- <-.
                 now rewrite E1, E2.
              ** intros sf src' Hin. apply (H sf). now right.
           ++ destruct (IH n0 (m0 ++ [concat [f; lit " (expects: "; src; lit ")"]]) Hrest)
                as (nulls & missing & -> & Hm).
              exists nulls, missing. split; [reflexivity|]. rewrite Hm. split.
              ** intros [H _]. destruct m0; discriminate.
              ** intros [-> H]. specialize (H f src (or_introl eq_refl) En).
                 rewrite E1, E2 in H. discriminate.
Qed.

End PreflightFacts.

(** X22. [validate_section], for a known section whose year has a non-empty dict
    of mappings and a file with a header: it succeeds exactly when it
    records no error, and that is exactly when every source name of the
    mapping other than [None] and ['null'] is in the header, as written or
    case aside. *)
Theorem preflight_success_iff (field_mappings : config) (year section_code mapping_key : str)
    (fields : list (str * source)) (csv_headers : list str) (strict : bool)
    (Hsection : Loader.assoc section_code Preflight.SECTION_TO_MAPPING = Some mapping_key)
    (Hyear : Preflight.year_mappings_of
               (Generator.mappings_of field_mappings mapping_key) year
             = Ok (Some (VDict fields)))
    (Hfields : fields <> [])
    (Hstrings : Forall (fun kv => string_or_none (snd kv) = true) fields)
    (Hheaders : csv_headers <> []) :
  exists success warnings errors,
    Preflight.validate_section field_mappings year section_code csv_headers strict
    = Ok (success, warnings, errors)
    /\ (success = true <-> errors = [])
    /\ (success = true
        <-> forall standard_field src,
              In (standard_field, SStr src) fields -> src <> lit "null" ->
              In src csv_headers \/ In (lower src) (map lower csv_headers)).
Proof.
  unfold Preflight.validate_section. rewrite Hsection, Hyear. cbn [bind].
  destruct fields as [|fd fields]; [contradiction|]. cbn [truthy negb].
  destruct csv_headers as [|h hs]; [contradiction|]. cbn [Template.items bind].
  destruct (scan_missing_nil (h :: hs) (fd :: fields) [] [] Hstrings)
    as (nulls & missing & -> & Hscan).
  cbn [bind].
  do 3 eexists. split; [reflexivity|].
  assert (Hiff : missing = [] <-> forall standard_field src,
              In (standard_field, SStr src) (fd :: fields) -> src <> lit "null" ->
              In src (h :: hs) \/ In (lower src) (map lower (h :: hs))).
  { rewrite Hscan. split.
    - intros [_ H] sf src Hin Hne. apply found_in_spec, (H sf); [exact Hin|].
      destruct (str_eqb src (lit "null")) eqn:E; [|reflexivity].
      apply str_eqb_eq in E. contradiction.
    - intros H. split; [reflexivity|]. intros sf src Hin Hn. apply found_in_spec.
      apply (H sf); [exact Hin|]. intros ->. discriminate. }
  rewrite <- Hiff. destruct missing as [|m ms]; cbn; split; split; intros; try reflexivity;
    try discriminate.
Qed.

Lemma preflight_success_iff_witness :
  exists success warnings errors,
    Preflight.validate_section Example.cfg (lit "2018") (lit "a_reg")
      (ExampleFiles.actual_fields_of (lit "a_reg")) false
    = Ok (success, warnings, errors)
    /\ (success = true <-> errors = [])
    /\ (success = true
        <-> forall standard_field src,
              In (standard_field, SStr src) [(lit "a", SStr (lit "col_a2"))] ->
              src <> lit "null" ->
              In src (ExampleFiles.actual_fields_of (lit "a_reg"))
              \/ In (lower src) (map lower (ExampleFiles.actual_fields_of (lit "a_reg")))).
Proof.
  apply (preflight_success_iff Example.cfg (lit "2018") (lit "a_reg")
           (lit "registration_mappings") [(lit "a", SStr (lit "col_a2"))]
           (ExampleFiles.actual_fields_of (lit "a_reg")) false eq_refl eq_refl).
  - discriminate.
  - repeat constructor.
  - vm_compute. discriminate.
Defined.

(** X23. Strict mode changes the warnings of [validate_section] only: verdict
    and errors, or the exception raised, are the same with and without it. *)
Theorem preflight_strict_same_verdict (field_mappings : config) (year section_code : str)
    (csv_headers : list str) :
  match Preflight.validate_section field_mappings year section_code csv_headers true,
        Preflight.validate_section field_mappings year section_code csv_headers false with
  | Ok (success1, _, errors1), Ok (success2, _, errors2) =>
    success1 = success2 /\ errors1 = errors2
  | Raise e1, Raise e2 => e1 = e2
  | _, _ => False
  end.
Proof.
  unfold Preflight.validate_section.
  destruct (Loader.assoc section_code Preflight.SECTION_TO_MAPPING); [|now split].
  destruct (Preflight.year_mappings_of _ year) as [[ym|]|]; cbn [bind];
    [|now split|reflexivity].
  destruct (negb (truthy ym)); [now split|].
  destruct csv_headers as [|h hs]; [now split|].
  destruct (Template.items ym) as [fields|]; cbn [bind]; [|reflexivity].
  destruct (Preflight.scan _ _ fields [] []) as [[nulls missing]|]; cbn [bind];
    [now split|reflexivity].
Qed.

(** ** What the corrected configuration leaves out *)

Section DroppedFacts.
Import MappingValidator.

Lemma dict_set_keys {A} k (v : A) d k' :
  In k' (map fst (Template.dict_set k v d)) -> k' = k \/ In k' (map fst d).
Proof.
  induction d as [|[k0 v0] d IH]; cbn.
  - intros [<- | []]. now left.
  - destruct (str_eqb k k0) eqn:E; cbn.
    + intros [<- | H]; auto.
    + intros [<- | H]; auto. destruct (IH H); auto.
Qed.

Lemma dict_set_keeps {A} k (v : A) d k' v' :
  k' <> k -> In (k', v') d -> In (k', v') (Template.dict_set k v d).
Proof.
  intros Hne. induction d as [|[k0 v0] d IH]; cbn; [intros []|].
  destruct (str_eqb k k0) eqn:E; cbn.
  - apply str_eqb_eq in E. subst k0. intros [H | H]; [|now right].
    injection H as <- <-. contradiction.
  - intros [H | H]; [now left|right; auto].
Qed.

Lemma dict_set_binds {A} k (v : A) d : In (k, v) (Template.dict_set k v d).
Proof.
  induction d as [|[k0 v0] d IH]; cbn; [now left|].
  destruct (str_eqb k k0) eqn:E; cbn.
  - apply str_eqb_eq in E. subst k0. now left.
  - now right.
Qed.

Lemma update_all_keys d acc k :
  In k (map fst (update_all d acc)) -> In k (map fst d) \/ In k (map fst acc).
Proof.
  unfold update_all. revert acc. induction d as [|[k0 v0] d IH]; intros acc; cbn; [auto|].
  intros H. apply IH in H. destruct H as [H | H]; [auto|].
  apply dict_set_keys in H. cbn in H. destruct H as [-> | H]; auto.
Qed.

(** The keys that the loop adds to the valid and to the corrected dict. *)
Lemma check_mappings_keys actual fields : forall t t' k,
  check_mappings actual fields t = Ok t' ->
  (In k (map fst (valid t')) ->
   In k (map fst (valid t))
   \/ exists src, In (k, src) fields
                  /\ match src with
                     | SNone => True
                     | SStr s => str_eqb s (lit "null") = true \/ str_in s actual = true
                     | SOther _ _ => False
                     end)
  /\ (In k (map fst (corrected t')) ->
      In k (map fst (corrected t))
      \/ exists s similar, In (k, SStr s) fields
                           /\ Suggest.find_similar_field s actual = Some similar).
Proof.
  induction fields as [|[f src] fields IH]; intros t t' k; cbn [check_mappings].
  - intros [= <-]. split; auto.
  - destruct src as [|s|truth text]; [| |discriminate]; intros E;
      destruct (IH _ _ k E) as [IV IC]; clear IH E; split.
    + intros H. apply IV in H. destruct H as [H | (src' & Hin & Hs)].
      * cbn in H. apply dict_set_keys in H. destruct H as [-> | H]; [|now left].
        right. exists SNone. split; [now left|exact I].
      * right. exists src'. split; [now right|exact Hs].
    + intros H. apply IC in H. destruct H as [H | (s & similar & Hin & Hs)]; [now left|].
      right. exists s, similar. split; [now right|exact Hs].
    + intros H. apply IV in H. destruct H as [H | (src' & Hin & Hs)].
      * destruct (str_eqb s (lit "null")) eqn:En.
        -- cbn in H. apply dict_set_keys in H. destruct H as [-> | H]; [|now left].
           right. exists (SStr s). split; [now left|now left].
        -- destruct (str_in s actual) eqn:Ea; cbn in H; [|now left].
           apply dict_set_keys in H. destruct H as [-> | H]; [|now left].
           right. exists (SStr s). split; [now left|now right].
      * right. exists src'. split; [now right|exact Hs].
    + intros H. apply IC in H. destruct H as [H | (s' & similar & Hin & Hs)].
      * destruct (str_eqb s (lit "null")); [now left|].
        destruct (str_in s actual); cbn in H; [now left|].
        destruct (Suggest.find_similar_field s actual) as [similar|] eqn:Ef; [|now left].
        destruct (str_eqb similar []); [now left|].
        apply dict_set_keys in H. destruct H as [-> | H]; [|now left].
        right. exists s, similar. split; [now left|exact Ef].
      * right. exists s', similar. split; [now right|exact Hs].
Qed.

Lemma check_mappings_invalid_keeps actual fields f v : forall t t',
  check_mappings actual fields t = Ok t' ->
  ~ In f (map fst fields) -> In (f, v) (invalid t) ->
  In (f, v) (invalid t').
Proof.
  induction fields as [|[k src] fields IH]; intros t t'; cbn [check_mappings].
  - now intros [= <-].
  - destruct src as [|s|truth text]; [| |discriminate]; intros E Hnot Hin;
      cbn in Hnot; apply (IH _ _ E); try tauto.
    destruct (str_eqb s (lit "null")); [exact Hin|].
    destruct (str_in s actual); cbn; [exact Hin|].
    apply dict_set_keeps; [|exact Hin]. intros ->. tauto.
Qed.

Lemma check_mappings_invalid actual fields f src : forall t t',
  check_mappings actual fields t = Ok t' ->
  List.NoDup (map fst fields) -> In (f, SStr src) fields ->
  str_eqb src (lit "null") = false -> str_in src actual = false ->
  In (f, src) (invalid t').
Proof.
  induction fields as [|[k s] fields IH]; intros t t' E Hnd Hin Hn Ha; [destruct Hin|].
  cbn in Hnd. inversion Hnd as [|? ? Hnotin Hnd']; subst.
  cbn [check_mappings] in E. destruct Hin as [E' | Hin].
  - injection E' as -> ->. rewrite Hn, Ha in E.
    apply (check_mappings_invalid_keeps _ _ _ _ _ _ E); [exact Hnotin|].
    cbn. apply dict_set_binds.
  - destruct s as [|s|truth text]; [| |discriminate]; now apply (IH _ _ E).
Qed.

Lemma NoDup_fst_unique {B} (l : list (str * B)) k v v' :
  List.NoDup (map fst l) -> In (k, v) l -> In (k, v') l -> v = v'.
Proof.
  induction l as [|[k0 v0] l IH]; cbn; [intros _ []|].
  intros Hnd. inversion Hnd as [|? ? Hnotin Hnd']; subst.
  intros [E | H] [E' | H'].
  - congruence.
  - injection E as -> ->. elim Hnotin. apply (in_map fst) in H'. exact H'.
  - injection E' as -> ->. elim Hnotin. apply (in_map fst) in H. exact H.
  - now apply IH.
Qed.

Lemma missing_fold_keys fs acc k :
  In k (map fst (fold_left (fun acc field => Template.dict_set field (lit "null") acc) fs acc)) ->
  In k fs \/ In k (map fst acc).
Proof.
  revert acc. induction fs as [|f fs IH]; intros acc; cbn; [auto|].
  intros H. apply IH in H. destruct H as [H | H]; [auto|].
  apply dict_set_keys in H. destruct H as [-> | H]; auto.
Qed.

End DroppedFacts.

(** X21. A configured field whose source is not in the file, and for which
    [find_similar_field] has no suggestion, is recorded as invalid and then
    left out of the corrected configuration altogether: the year's corrected
    mapping has no entry for it. *)
Theorem invalid_without_suggestion_dropped (cfg : config) (year section mapping_key : str)
    (actual_fields : list str) (r : MappingValidator.results)
    (fields : list (str * source)) (field src : str)
    (Hres : MappingValidator.validate_section_mappings cfg year section mapping_key
              actual_fields = Ok (MappingValidator.Results r))
    (Hyear : Generator.year_mappings_of (Generator.mappings_of cfg mapping_key) year
             = Ok (VDict fields))
    (Hnodup : List.NoDup (map fst fields))
    (Hfield : In (field, SStr src) fields)
    (Hnull : src <> lit "null")
    (Habsent : ~ In src actual_fields)
    (Hnone : Suggest.find_similar_field src actual_fields = None) :
  In (field, src) (MappingValidator.invalid_mappings r)
  /\ ~ In field (map fst (MappingValidator.corrected_year_mappings r)).
Proof.
  assert (Hn : str_eqb src (lit "null") = false).
  { destruct (str_eqb src (lit "null")) eqn:E; [|reflexivity].
    apply str_eqb_eq in E. contradiction. }
  assert (Ha : str_in src actual_fields = false).
  { destruct (str_in src actual_fields) eqn:E; [|reflexivity].
    apply str_in_In in E. contradiction. }
  unfold MappingValidator.validate_section_mappings in Hres.
  destruct actual_fields as [|a actual]; [discriminate|].
  rewrite Hyear in Hres. cbn [bind] in Hres.
  destruct (negb (truthy (VDict fields))); [discriminate|].
  cbn [MappingValidator.len_of bind Template.items] in Hres.
  destruct (MappingValidator.len_of _); cbn [bind] in Hres; [|discriminate].
  destruct (MappingValidator.check_mappings (a :: actual) fields _) as [t|] eqn:Et;
    cbn [bind] in Hres; [|discriminate].
  destruct (iterate _) as [standard|]; cbn [bind] in Hres; [|discriminate].
  injection Hres as <-. cbn [MappingValidator.invalid_mappings].
  split; [now apply (check_mappings_invalid _ _ _ _ _ _ Et)|].
  unfold MappingValidator.corrected_year_mappings.
  cbn [MappingValidator.valid_mappings MappingValidator.corrected_mappings
       MappingValidator.missing_mappings].
  intros H. apply missing_fold_keys in H. destruct H as [H | H].
  - apply filter_In in H. destruct H as [_ H]. apply negb_true_iff in H.
    unfold MappingValidator.has_key in H.
    assert (Hex : existsb (fun kv : str * source => str_eqb field (fst kv)) fields = true).
    { apply existsb_exists. exists (field, SStr src). split; [exact Hfield|].
      now apply str_eqb_eq. }
    congruence.
  - apply update_all_keys in H. destruct H as [H | H].
    + apply (proj2 (check_mappings_keys _ _ _ _ field Et)) in H.
      destruct H as [[] | (s & similar & Hin & Hs)].
      pose proof (NoDup_fst_unique _ _ _ _ Hnodup Hfield Hin) as E. injection E as <-.
      congruence.
    + apply update_all_keys in H. destruct H as [H | []].
      apply (proj1 (check_mappings_keys _ _ _ _ field Et)) in H.
      destruct H as [[] | (src' & Hin & Hs)].
      pose proof (NoDup_fst_unique _ _ _ _ Hnodup Hfield Hin) as E. subst src'.
      destruct Hs; congruence.
Qed.

Lemma invalid_without_suggestion_dropped_witness :
  exists r,
    MappingValidator.validate_section_mappings Example.cfg (lit "2024") (lit "a_reg")
      (lit "registration_mappings") [lit "FIPS"; lit "A1a"] = Ok (MappingValidator.Results r)
    /\ In (lit "b", lit "col_b3") (MappingValidator.invalid_mappings r)
    /\ ~ In (lit "b") (map fst (MappingValidator.corrected_year_mappings r)).
Proof.
  eexists. split; [vm_compute; reflexivity|].
  eapply (invalid_without_suggestion_dropped Example.cfg (lit "2024") (lit "a_reg")
            (lit "registration_mappings") [lit "FIPS"; lit "A1a"] _
            [(lit "b", SStr (lit "col_b3"))] (lit "b") (lit "col_b3")).
  - vm_compute. reflexivity.
  - reflexivity.
  - repeat constructor. intros [].
  - now left.
  - discriminate.
  - intros [H | [H | []]]; discriminate.
  - vm_compute. reflexivity.
Defined.

(** ** Which suggestion comes first *)

(** X24. When one of the available fields equals the target apart from case,
    [find_similar_field] returns the first such field, before any partial
    or keyword match; with no fields available it returns [None]. *)
Theorem exact_match_first (target : str) (before after : list str) (field : str)
    (Hmatch : lower field = lower target)
    (Hfirst : forall g, In g before -> lower g <> lower target) :
  Suggest.find_similar_field target (before ++ field :: after) = Some field
  /\ Suggest.find_similar_field target [] = None.
Proof.
  split.
  2: { unfold Suggest.find_similar_field, Suggest.patterns. cbn.
       repeat (destruct (contains _ (lower target)); cbn); reflexivity. }
  unfold Suggest.find_similar_field.
  assert (E : Suggest.first_field (fun f => str_eqb (lower f) (lower target))
                (before ++ field :: after) = Some field).
  { unfold Suggest.first_field. induction before as [|g before IH]; cbn.
    - rewrite (proj2 (str_eqb_eq _ _) Hmatch). reflexivity.
    - destruct (str_eqb (lower g) (lower target)) eqn:Eg.
      + apply str_eqb_eq in Eg. elim (Hfirst g); [now left|exact Eg].
      + apply IH. intros g' Hg'. apply Hfirst. now right. }
  now rewrite E.
Qed.

Lemma exact_match_first_witness :
  Suggest.find_similar_field (lit "a1a") [lit "FIPS"; lit "A1a_total"; lit "A1A"]
  = Some (lit "A1A").
Proof.
  refine (proj1 (exact_match_first (lit "a1a") [lit "FIPS"; lit "A1a_total"] []
                   (lit "A1A") eq_refl _)).
  intros g [<- | [<- | []]]; vm_compute; discriminate.
Defined.
